(** * realestate-admin-backend: the property-view counter and the dashboard
      statistics cache

    The development embeds
    - [routes/property_views.js] (POST and GET [/api/property-views/:id]),
    - the [property_views] table of the SQL schema (columns and their
      types, NOT NULL constraints, primary key, foreign keys, the unique
      index [unique_ip_view_24h], row-level security),
    - the mount table of [index.js] and the [authenticateToken] middleware,
    - [routes/dashboard.js] ([statsCache] and GET [/stats]),
    and proves or refutes the statements of the specification about them.

    Route handlers are [async] functions: they are written as programs of a
    small free monad whose only effect is an awaited call to the record
    store.  A program is run sequentially against a store, or several of them
    are interleaved call by call over one shared store. *)

From Stdlib Require Import ZArith NArith Ascii String Lia.
From stdpp Require Import base list strings gmap relations.

Local Open Scope Z_scope.

(** ** JavaScript strings *)

Module Js.

(** A JavaScript string is a sequence of UTF-16 code units. *)
Definition jsstring := list N.

Definition lit (s : string) : jsstring :=
  List.map N_of_ascii (list_ascii_of_string s).

(** ECMAScript [WhiteSpace] and [LineTerminator] code points, the ones
    [String.prototype.trim] strips. *)
Definition is_white_space (c : N) : bool :=
  ((9 <=? c) && (c <=? 13) ||
   (c =? 32) || (c =? 160) || (c =? 5760) ||
   (8192 <=? c) && (c <=? 8202) ||
   (c =? 8232) || (c =? 8233) || (c =? 8239) || (c =? 8287) ||
   (c =? 12288) || (c =? 65279))%N.

Fixpoint trim_start (s : jsstring) : jsstring :=
  match s with
  | c :: s' => if is_white_space c then trim_start s' else s
  | [] => []
  end.

Definition trim_end (s : jsstring) : jsstring :=
  rev (trim_start (rev s)).

(** [s.trim()] *)
Definition trim (s : jsstring) : jsstring := trim_end (trim_start s).

(** Truthiness of a value that is a string or [undefined]: the empty
    string and [undefined] are falsy. *)
Definition truthy (v : option jsstring) : bool :=
  match v with
  | Some (_ :: _) => true
  | _ => false
  end.

(** The values the handlers put into row objects.  [JIso ms] is the string
    [new Date(ms).toISOString()], kept as the instant it denotes. *)
Inductive value :=
| JNull
| JBool (b : bool)
| JStr (s : jsstring)
| JIso (ms : Z).

#[global] Instance value_eq_dec : EqDecision value.
Proof. solve_decision. Defined.

(** An error object thrown by a rejected promise. *)
Record error := { message : string }.

End Js.

Import Js.

(** A JavaScript object literal used as a row: keys to values. *)
Abbreviation JsObject := (gmap string Js.value).

(** ** Programs that await the record store *)

(** Outcome of [await p]: the promise fulfils with a value or rejects, and
    then the [await] throws. *)
Inductive Settled (A : Type) :=
| Fulfilled (a : A)
| Rejected (e : Js.error).
Arguments Fulfilled {A} a.
Arguments Rejected {A} e.

Section Programs.
Context {call : Type} {answer : call -> Type}.

Inductive Prog (R : Type) : Type :=
| Ret (r : R)
| Await (c : call) (k : Settled (answer c) -> Prog R).

Context {St : Type} (exec : forall c : call, St -> St * Settled (answer c)).

(** Sequential run: final store, result, and the calls issued, in order. *)
Fixpoint run {R} (s : St) (p : Prog R) : St * R * list call :=
  match p with
  | Ret _ r => (s, r, [])
  | Await _ c k =>
      let '(s', a) := exec c s in
      let '(s'', r, tr) := run s' (k a) in
      (s'', r, c :: tr)
  end.
End Programs.

Arguments Prog {call} answer R.
Arguments Ret {call answer R} r.
Arguments Await {call answer R} c k.

(** ** The record store: table [public.property_views]

    The table is modelled from its definition in the schema:
<<
  CREATE TABLE public.property_views (
    id uuid NOT NULL DEFAULT uuid_generate_v4(),
    property_id uuid NOT NULL,
    profiles_id uuid,
    viewed_at timestamp with time zone NOT NULL DEFAULT timezone('utc', now()),
    ip_address text NOT NULL,
    viewed_date date NOT NULL,
    CONSTRAINT property_views_pkey PRIMARY KEY (id), ... );
  CREATE UNIQUE INDEX unique_ip_view_24h
    ON public.property_views (property_id, ip_address, viewed_date);
>>
    with its two foreign keys ([property_id] to [public.properties(id)],
    [profiles_id] to [public.profiles(profiles_id)]) and
<<
  alter table public.property_views enable row level security;
>>
    for which the schema creates no policy.

    Outside the model: spellings of a uuid other than the canonical one
    (PostgreSQL also reads upper case, braces and other hyphenation), changes
    to the referenced tables (no call of this router makes any), and store
    outages in a sequential run (the interleaving semantics below has
    them). *)

(** The two clients of [config/database.js]: [supabase] (anon key) and
    [supabaseAdmin] (service-role key). *)
Inductive Client := Anon | Admin.

Inductive PgError :=
| UndefinedColumn                      (* a key that names no column *)
| InvalidInput (col : string)          (* a value the column type rejects *)
| NotNullViolation (col : string)      (* SQLSTATE 23502 *)
| UniqueViolation (index : string)     (* SQLSTATE 23505 *)
| ForeignKeyViolation (fkey : string)  (* SQLSTATE 23503 *)
| RowSecurityViolation.                (* SQLSTATE 42501 *)

Inductive RowId :=
| GenId (n : N)                        (* produced by uuid_generate_v4() *)
| GivenId (s : jsstring).              (* supplied by the client *)

#[global] Instance RowId_eq_dec : EqDecision RowId.
Proof. solve_decision. Defined.

Record PropertyView := {
  pv_id : RowId;
  property_id : jsstring;
  profiles_id : option jsstring;
  viewed_at : Z;                       (* instant, ms since the epoch *)
  ip_address : jsstring;
  viewed_date : Z                      (* calendar day, days since the epoch *)
}.

Record Db := {
  property_views : list PropertyView;
  next_id : N;                         (* source of generated ids *)
  db_clock : Z;                        (* the database's now() *)
  db_properties : list jsstring;       (* the ids in public.properties *)
  db_profiles : list jsstring          (* the profiles_id in public.profiles *)
}.

Definition empty_db : Db :=
  {| property_views := []; next_id := 0%N; db_clock := 0;
     db_properties := []; db_profiles := [] |}.

(** The table with rows appended and the generator advanced. *)
Definition stored (db : Db) (r : PropertyView) : Db :=
  {| property_views := property_views db ++ [r];
     next_id := N.succ (next_id db);
     db_clock := db_clock db;
     db_properties := db_properties db;
     db_profiles := db_profiles db |}.

(** The database some time later. *)
Definition later (db : Db) (d : Z) : Db :=
  {| property_views := property_views db;
     next_id := next_id db;
     db_clock := db_clock db + d;
     db_properties := db_properties db;
     db_profiles := db_profiles db |}.

(** Text of type [uuid], in the canonical form PostgreSQL prints: lower-case
    hexadecimal digits in groups of 8, 4, 4, 4 and 12, hyphens between. *)
Definition is_hex (c : N) : bool :=
  ((48 <=? c) && (c <=? 57) || (97 <=? c) && (c <=? 102))%N.

Fixpoint hex_run (n : nat) (s : jsstring) : option jsstring :=
  match n, s with
  | O, _ => Some s
  | S n', c :: s' => if is_hex c then hex_run n' s' else None
  | S _, [] => None
  end.

Definition hyphen (s : jsstring) : option jsstring :=
  match s with
  | c :: s' => if (c =? 45)%N then Some s' else None
  | [] => None
  end.

Definition is_uuid (s : jsstring) : bool :=
  let group (n : nat) (rest : option jsstring) : option jsstring :=
    (rest ≫= hex_run n) ≫= hyphen in
  match group 4%nat (group 4%nat (group 4%nat (group 8%nat (Some s))))
        ≫= hex_run 12 with
  | Some [] => true
  | _ => false
  end.

Definition columns : list string :=
  ["id"; "property_id"; "profiles_id"; "viewed_at"; "ip_address";
   "viewed_date"]%string.

Definition ms_per_day : Z := 86400000.

(** Casting a timestamp string to [date] keeps its (UTC) calendar day. *)
Definition date_of (ms : Z) : Z := ms / ms_per_day.

(** The key of the unique index [unique_ip_view_24h]. *)
Definition triple (r : PropertyView) : jsstring * jsstring * Z :=
  (property_id r, ip_address r, viewed_date r).

(** Input conversion of one cell; [inr None] is SQL NULL (key absent from
    the object, or present with value [null]). *)
Definition text_cell (col : string) (v : option Js.value)
  : PgError + option jsstring :=
  match v with
  | None | Some JNull => inr None
  | Some (JStr s) => inr (Some s)
  | Some (JIso _) | Some (JBool _) => inl (InvalidInput col)
  end.

(** A cell of a [uuid] column. *)
Definition uuid_cell (col : string) (v : option Js.value)
  : PgError + option jsstring :=
  match text_cell col v with
  | inr (Some s) => if is_uuid s then inr (Some s) else inl (InvalidInput col)
  | other => other
  end.

Definition time_cell (col : string) (v : option Js.value)
  : PgError + option Z :=
  match v with
  | None | Some JNull => inr None
  | Some (JIso ms) => inr (Some ms)
  | Some (JStr _) | Some (JBool _) => inl (InvalidInput col)
  end.

Definition not_null {A} (col : string) (c : option A) : PgError + A :=
  match c with
  | Some a => inr a
  | None => inl (NotNullViolation col)
  end.

Definition bind_pg {A B} (m : PgError + A) (f : A -> PgError + B)
  : PgError + B :=
  match m with
  | inl e => inl e
  | inr a => f a
  end.

Notation "'let?' x := m 'in' f" := (bind_pg m (fun x => f))
  (at level 10, x name, m at level 100, f at level 200).

(** Columns with a DEFAULT take it when the key is absent; an explicit
    [null] is a NULL. *)
Definition with_default {A} (v : option Js.value) (d : A) (c : option A)
  : option A :=
  match v with
  | None => Some d
  | Some _ => c
  end.

(** Whether the store can read a row object: its keys name columns and its
    values convert to their types. *)
Definition readable (o : JsObject) : PgError + unit :=
  if bool_decide (map_Forall (fun k _ => k ∈ columns) o) then
    let? _c := uuid_cell "id" (o !! "id"%string) in
    let? _c := uuid_cell "property_id" (o !! "property_id"%string) in
    let? _c := uuid_cell "profiles_id" (o !! "profiles_id"%string) in
    let? _c := time_cell "viewed_at" (o !! "viewed_at"%string) in
    let? _c := text_cell "ip_address" (o !! "ip_address"%string) in
    let? _c := time_cell "viewed_date" (o !! "viewed_date"%string) in
    inr tt
  else inl UndefinedColumn.

(** A foreign key: a value that is not NULL must be in the referenced
    column. *)
Definition references (fkey : string) (v : option jsstring)
    (referenced : list jsstring) : PgError + unit :=
  match v with
  | Some s => if bool_decide (s ∈ referenced) then inr tt
              else inl (ForeignKeyViolation fkey)
  | None => inr tt
  end.

(** INSERT of one row object by a role that row-level security does not
    bind: the values are read, then NOT NULL, the primary key and the unique
    index are checked as the row goes in, and the foreign keys after it. *)
Definition insert_row (db : Db) (o : JsObject) : PgError + Db :=
  if bool_decide (map_Forall (fun k _ => k ∈ columns) o) then
    let? id_c := uuid_cell "id" (o !! "id"%string) in
    let? pid_c := uuid_cell "property_id" (o !! "property_id"%string) in
    let? prof_c := uuid_cell "profiles_id" (o !! "profiles_id"%string) in
    let? at_c := time_cell "viewed_at" (o !! "viewed_at"%string) in
    let? ip_c := text_cell "ip_address" (o !! "ip_address"%string) in
    let? day_c := time_cell "viewed_date" (o !! "viewed_date"%string) in
    let? rid := not_null "id"
              (with_default (o !! "id"%string) (GenId (next_id db))
                            (GivenId <$> id_c)) in
    let? pid := not_null "property_id" pid_c in
    let? vat := not_null "viewed_at"
              (with_default (o !! "viewed_at"%string) (db_clock db) at_c) in
    let? ip := not_null "ip_address" ip_c in
    let? day := not_null "viewed_date" (date_of <$> day_c) in
    let r := {| pv_id := rid; property_id := pid; profiles_id := prof_c;
                viewed_at := vat; ip_address := ip; viewed_date := day |} in
    if bool_decide (rid ∈ pv_id <$> property_views db) then
      inl (UniqueViolation "property_views_pkey")
    else if bool_decide (triple r ∈ triple <$> property_views db) then
      inl (UniqueViolation "unique_ip_view_24h")
    else
      let? _ok := references "property_views_property_id_fkey" (Some pid)
                    (db_properties db) in
      let? _ok := references "fk_profiles_id" prof_c (db_profiles db) in
      inr (stored db r)
  else inl UndefinedColumn.

(** A bulk insert is one statement: all rows or none. *)
Fixpoint insert_rows (db : Db) (rows : list JsObject) : PgError + Db :=
  match rows with
  | [] => inr db
  | o :: rows' => let? db' := insert_row db o in insert_rows db' rows'
  end.

(** What [await client.from('property_views').insert(rows)] resolves to. *)
Record InsertResult := { insert_error : option PgError }.

Definition pg_insert (db : Db) (rows : list JsObject) : Db * InsertResult :=
  match insert_rows db rows with
  | inl e => (db, {| insert_error := Some e |})
  | inr db' => (db', {| insert_error := None |})
  end.

(** The row filter of [.eq(col, v)]; the value is read in the type of the
    column. *)
Definition eq_filter (col : string) (v : Js.value)
  : PgError + (PropertyView -> bool) :=
  if bool_decide (col ∈ columns) then
    if bool_decide (col ∈ ["viewed_at"; "viewed_date"]%string) then
      match v with
      | JIso ms =>
          if bool_decide (col = "viewed_at"%string)
          then inr (fun r => bool_decide (viewed_at r = ms))
          else inr (fun r => bool_decide (viewed_date r = date_of ms))
      | _ => inl (InvalidInput col)
      end
    else
      match v with
      | JStr s =>
          if bool_decide (col = "ip_address"%string) then
            inr (fun r => bool_decide (ip_address r = s))
          else if is_uuid s then
            inr (fun r =>
              if bool_decide (col = "id"%string)
              then bool_decide (pv_id r = GivenId s)
              else if bool_decide (col = "property_id"%string)
              then bool_decide (property_id r = s)
              else bool_decide (profiles_id r = Some s))
          else inl (InvalidInput col)
      | _ => inl (InvalidInput col)
      end
  else inl UndefinedColumn.

(** What [await client.from('property_views')
      .select('*', { count: 'exact', head: true }).eq(col, v)] resolves to. *)
Record CountResult := { count : option N; count_error : option PgError }.

(** The rows a client may read.  Row-level security is enabled on the table
    and no policy exists, so the anon role, which the platform lets query
    the table, reads none of them; the service role is not bound by
    row-level security. *)
Definition visible (c : Client) (db : Db) : list PropertyView :=
  match c with
  | Admin => property_views db
  | Anon => []
  end.

Definition pg_count (c : Client) (db : Db) (col : string) (v : Js.value)
  : CountResult :=
  match eq_filter col v with
  | inl e => {| count := None; count_error := Some e |}
  | inr f =>
      {| count := Some (N.of_nat (length (List.filter f (visible c db))));
         count_error := None |}
  end.

(** Number of stored rows of a property: [count( * ) where property_id = P]. *)
Definition count_rows (P : jsstring) (db : Db) : N :=
  N.of_nat (length (List.filter (fun r => bool_decide (property_id r = P))
                                (property_views db))).

(** Rows stored under one key of the unique index. *)
Definition rows_with (P ip : jsstring) (day : Z) (db : Db)
  : list PropertyView :=
  List.filter (fun r => bool_decide (triple r = (P, ip, day)))
              (property_views db).

(** The calls the property-views router awaits. *)
Inductive ViewsCall :=
| InsertPropertyViews (c : Client) (rows : list JsObject)
| CountPropertyViews (c : Client) (col : string) (v : Js.value).

Definition views_answer (c : ViewsCall) : Type :=
  match c with
  | InsertPropertyViews _ _ => InsertResult
  | CountPropertyViews _ _ _ => CountResult
  end.

(** A bulk insert by the anon role.  With no policy on the table no row
    passes the check of row-level security, which comes before the
    constraints: the first row is turned down, unless the store cannot read
    it in the first place. *)
Definition pg_insert_anon (rows : list JsObject) : InsertResult :=
  match rows with
  | [] => {| insert_error := None |}
  | o :: _ =>
      {| insert_error :=
           Some (match readable o with
                 | inl e => e
                 | inr _ => RowSecurityViolation
                 end) |}
  end.

(** The store executing one call. *)
Definition pg_exec (c : ViewsCall) (db : Db) : Db * views_answer c :=
  match c with
  | InsertPropertyViews Admin rows => pg_insert db rows
  | InsertPropertyViews Anon rows => (db, pg_insert_anon rows)
  | CountPropertyViews cl col v => (db, pg_count cl db col v)
  end.

Definition pg_await (c : ViewsCall) (db : Db)
  : Db * Settled (views_answer c) :=
  let '(db', a) := pg_exec c db in (db', Fulfilled a).

(** ** Requests and responses *)

(** [req.user] as [authenticateToken] sets it. *)
Record User := {
  userId : jsstring;
  email : Js.value;
  role : Js.value;
  profile : JsObject
}.

(** The parts of an HTTP request the routes read. *)
Record HttpRequest := {
  url_id : option jsstring;            (* the [:id] segment of the path *)
  authorization : option jsstring;     (* the Authorization header *)
  query_token : option jsstring;       (* ?token= *)
  remote_ip : option jsstring          (* address of the peer *)
}.

(** The Express request object. *)
Record Request := {
  params_id : option jsstring;         (* req.params.id *)
  headers_authorization : option jsstring;
  query_token_of : option jsstring;
  ip : option jsstring;                (* req.ip *)
  user : option User                   (* req.user *)
}.

(** The request object Express builds for an arriving message: it has no
    [user] property until a middleware assigns one. *)
Definition fresh (h : HttpRequest) : Request :=
  {| params_id := url_id h;
     headers_authorization := authorization h;
     query_token_of := query_token h;
     ip := remote_ip h;
     user := None |}.

Inductive Body :=
| Failure (error : string)             (* { success: false, error } *)
| ViewCount (n : option N)             (* { success: true, data: { count } } *)
| AuthError (error : string)           (* { error } *)
| NotFound                             (* no route matched *)
| StatsBody (totalProperties activeUsers pendingInquiries : N)
| StatsError (error details : string)
             (totalProperties activeUsers pendingInquiries : N)
| StatsTimeout (error : string)
               (totalProperties activeUsers pendingInquiries : N).

Record Response := { status : Z; body : Body }.

(** [res.status(c).json(b)] and [res.json(b)] *)
Definition status_json (c : Z) (b : Body) : Response :=
  {| status := c; body := b |}.
Definition json (b : Body) : Response := status_json 200 b.

(** The caller sees the view operation succeed: [{ success: true, ... }]. *)
Definition is_success (r : Response) : Prop :=
  exists n, r = json (ViewCount n).

(** ** routes/property_views.js *)

Module PropertyViews.

(** The object of [.insert([ ... ])] in the POST handler. *)
Definition view_row (now : Z) (req : Request) (propertyId : jsstring)
  : JsObject :=
  {[ "property_id"%string := JStr propertyId;
     "viewed_date"%string := JIso now;
     "user_id"%string :=
       match user req with
       | Some u => JStr (userId u)
       | None => JNull
       end ]}.

(** POST [/:id]; [now] is the instant [new Date()] reads. *)
Definition recordView (now : Z) (req : Request)
  : Prog views_answer Response :=
  let propertyId := trim <$> params_id req in
  if negb (truthy propertyId) then
    Ret (status_json 400 (Failure "Invalid property ID"))
  else
    let propertyId := default [] propertyId in
    Await (InsertPropertyViews Admin [view_row now req propertyId])
      (fun inserted =>
         match inserted with
         | Fulfilled {| insert_error := None |} =>
             Await (CountPropertyViews Anon "property_id" (JStr propertyId))
               (fun counted =>
                  match counted with
                  | Fulfilled {| count := n; count_error := None |} =>
                      Ret (json (ViewCount n))
                  | _ =>
                      Ret (status_json 500
                             (Failure "Failed to record property view"))
                  end)
         | _ =>
             Ret (status_json 500
                    (Failure "Failed to record property view"))
         end).

(** GET [/:id] *)
Definition getViewCount (req : Request) : Prog views_answer Response :=
  let propertyId := trim <$> params_id req in
  if negb (truthy propertyId) then
    Ret (status_json 400 (Failure "Invalid property ID"))
  else
    let propertyId := default [] propertyId in
    Await (CountPropertyViews Anon "property_id" (JStr propertyId))
      (fun counted =>
         match counted with
         | Fulfilled {| count := n; count_error := None |} =>
             Ret (json (ViewCount n))
         | _ =>
             Ret (status_json 500
                    (Failure "Failed to fetch property view count"))
         end).

End PropertyViews.

Import PropertyViews.

(** ** Stores the handlers are run against *)

(** The table store with the answer to an insert taken as given: [db] is the
    table as that insert left it -- for an insert that failed, the table
    before it -- and counts read it as their client may.  It lets a
    statement range over every way an insert can fail. *)
Definition answered_insert (ins : Settled InsertResult)
    (c : ViewsCall) (db : Db) : Db * Settled (views_answer c) :=
  match c with
  | InsertPropertyViews _ _ => (db, ins)
  | CountPropertyViews cl col v => (db, Fulfilled (pg_count cl db col v))
  end.

(** An insert that did not go through: the promise rejected, or it fulfilled
    with an [error]. *)
Definition insert_failed (ins : Settled InsertResult) : Prop :=
  match ins with
  | Fulfilled r => insert_error r <> None
  | Rejected _ => True
  end.

(** A count that did not go through. *)
Definition count_failed (cnt : Settled CountResult) : Prop :=
  match cnt with
  | Fulfilled r => count_error r <> None
  | Rejected _ => True
  end.

(** ** Concurrent requests

    Requests in flight are programs stopped at an [await]; the store serves
    one call at a time, in any order.  A call may also fail to reach the
    store, and the database clock moves on between calls. *)

Definition System : Type := Db * list (Prog views_answer Response).

Inductive step : System -> System -> Prop :=
| step_call db ts i c k :
    ts !! i = Some (Await c k) ->
    step (db, ts)
         ((pg_exec c db).1, <[i := k (Fulfilled (pg_exec c db).2)]> ts)
| step_unreachable db ts i c k e :
    ts !! i = Some (Await c k) ->
    step (db, ts) (db, <[i := k (Rejected e)]> ts)
| step_arrive db ts p :
    step (db, ts) (db, ts ++ [p])
| step_tick db ts d :
    0 <= d ->
    step (db, ts) (later db d, ts).

Definition reachable (s0 s : System) : Prop := rtc step s0 s.

(** All requests have been answered. *)
Definition quiescent (s : System) : Prop :=
  Forall (fun p => exists r, p = Ret r) s.2.

(** The invariant of the unique index. *)
Definition unique_triples (db : Db) : Prop :=
  NoDup (triple <$> property_views db).

(** ** routes/dashboard.js: [statsCache] and GET [/stats]

    The handler sets a timer of 5000 ms before it awaits the batch of
    queries, and clears it when the batch settles.  Whether the callback of
    the timer ran in between is for the event loop to say: the program asks
    it at [clearTimeout]. *)

Module Dashboard.

(** [responseData] *)
Record Stats := {
  totalProperties : N;
  activeUsers : N;
  pendingInquiries : N
}.

Record StatsCache := {
  data : option Stats;               (* null until first computed *)
  timestamp : Z;
  cacheDuration : Z
}.

(** The module-level cache object as the module creates it. *)
Definition statsCache : StatsCache :=
  {| data := None; timestamp := 0; cacheDuration := 4000 |}.

(** [supabase.from(t).select(c, { count: 'exact' }).eq(col, v)] *)
Record CountQuery := {
  from : string;
  select : string;
  eq_column : string;
  eq_value : Js.value
}.

(** What the handler waits for or asks of the event loop: [Promise.all] of
    the four count queries, and [clearTimeout(timeout)]. *)
Inductive StatsCall :=
| PromiseAll4 (q1 q2 q3 q4 : CountQuery)
| ClearTimeout.

Definition Counts : Type :=
  CountResult * CountResult * CountResult * CountResult.

(** [clearTimeout] returns nothing in JavaScript.  Its answer here is what
    the event loop knows at that point: whether the callback of the timer
    had already run, that is, whether 5000 ms passed before the batch
    settled. *)
Definition stats_answer (c : StatsCall) : Type :=
  match c with
  | PromiseAll4 _ _ _ _ => Counts
  | ClearTimeout => bool
  end.

Definition dashboard_queries : StatsCall :=
  PromiseAll4
    {| from := "properties"; select := "id";
       eq_column := "verified"; eq_value := JBool true |}
    {| from := "profiles"; select := "profiles_id";
       eq_column := "status"; eq_value := JStr (lit "active") |}
    {| from := "property_inquiries"; select := "id";
       eq_column := "status"; eq_value := JStr (lit "pending") |}
    {| from := "contact_submissions"; select := "id";
       eq_column := "status"; eq_value := JStr (lit "pending") |}.

(** One component of the statistics: the variable keeps its initial 0 when
    the query carries an [error], and takes [count || 0] otherwise. *)
Definition component (q : CountResult) : N :=
  match count_error q with
  | Some _ => 0%N
  | None => default 0%N (count q)
  end.

Definition stats_of (qs : Counts) : Stats :=
  let '(propertiesQuery, usersQuery, propertyInquiriesQuery,
        contactSubmissionsQuery) := qs in
  let totalProperties := component propertiesQuery in
  let activeUsers := component usersQuery in
  let pendingPropertyInquiries := component propertyInquiriesQuery in
  let pendingContactSubmissions := component contactSubmissionsQuery in
  let totalPendingInquiries :=
    (pendingPropertyInquiries + pendingContactSubmissions)%N in
  {| totalProperties := totalProperties;
     activeUsers := activeUsers;
     pendingInquiries := totalPendingInquiries |}.

Definition stats_body (d : Stats) : Body :=
  StatsBody (totalProperties d) (activeUsers d) (pendingInquiries d).

(** [statsCache.data && (now - statsCache.timestamp < statsCache.cacheDuration)] *)
Definition fresh_payload (c : StatsCache) (now : Z) : option Stats :=
  match data c with
  | Some d => if now - timestamp c <? cacheDuration c then Some d else None
  | None => None
  end.

(** The condition under which the handler does not answer from the
    cache. *)
Definition stale (c : StatsCache) (now : Z) : Prop :=
  data c = None \/ cacheDuration c <= now - timestamp c.

(** The cache object after [statsCache.data = d; statsCache.timestamp =
    now]. *)
Definition refreshed (c : StatsCache) (now : Z) (d : Stats) : StatsCache :=
  {| data := Some d; timestamp := now; cacheDuration := cacheDuration c |}.

(** What the callback of [setTimeout(..., 5000)] sends. *)
Definition timeout_reply : Response :=
  status_json 408
    (StatsTimeout "Request timeout while fetching dashboard statistics"
                  0 0 0).

(** The response the caller has in the end is the first one sent.  Once the
    callback of the timer has run, its 408 is out; the handler's own
    [res.json] then throws on the headers already sent, the exception lands
    in the catch blocks, and their [res.status(500).json] throws in turn. *)
Definition first_sent (fired : bool) (r : Response) : Response :=
  if fired then timeout_reply else r.

(** GET [/stats]; [now] is what [Date.now()] returns.  The result pairs
    the cache object as the handler leaves it with the response the caller
    gets.  The timer is set before the batch is awaited and cleared right
    after it settles, on either path. *)
Definition getStats (c : StatsCache) (now : Z) (req : Request)
  : Prog stats_answer (StatsCache * Response) :=
  match fresh_payload c now with
  | Some d => Ret (c, json (stats_body d))
  | None =>
      Await dashboard_queries (fun settled =>
      Await ClearTimeout (fun cleared =>
        match settled, cleared with
        | Fulfilled qs, Fulfilled fired =>
            let responseData := stats_of qs in
            Ret (refreshed c now responseData,
                 first_sent fired (json (stats_body responseData)))
        | Rejected error, Fulfilled fired =>
            Ret (c, first_sent fired
                      (status_json 500
                         (StatsError "Failed to fetch dashboard statistics"
                                     (message error) 0 0 0)))
        | _, Rejected error =>
            Ret (c, status_json 500
                      (StatsError "Failed to fetch dashboard statistics"
                                  (message error) 0 0 0))
        end))
  end.

(** A scripted store that answers in time: the [n]-th batch it is asked for
    settles as [outcomes n], before the timer.  Its state counts the batches
    run so far. *)
Definition scripted (outcomes : nat -> Settled Counts)
    (c : StatsCall) (n : nat) : nat * Settled (stats_answer c) :=
  match c with
  | PromiseAll4 _ _ _ _ => (S n, outcomes n)
  | ClearTimeout => (n, Fulfilled false)
  end.

(** One request served at time [now]: the state is the cache together with
    the number of times the four queries have been run. *)
Definition serve (outcomes : nat -> Settled Counts)
    (st : StatsCache * nat) (now : Z) (req : Request)
  : (StatsCache * nat) * Response :=
  let '(n', (c', resp), _) :=
    run (scripted outcomes) st.2 (getStats st.1 now req) in
  ((c', n'), resp).

(** The store and the clock as the batches find them: what the [n]-th batch
    gets for each query it sends, and whether that batch takes longer than
    the 5000 ms of the timer. *)
Record World := {
  tables : nat -> CountQuery -> Settled CountResult;
  slow : nat -> bool
}.

(** [Promise.all] of four promises: fulfilled with the four values, or
    rejected with the reason of one that rejected (here the first in the
    array; which one rejects first in time is not modelled). *)
Definition all4 (p1 p2 p3 p4 : Settled CountResult) : Settled Counts :=
  match p1, p2, p3, p4 with
  | Fulfilled r1, Fulfilled r2, Fulfilled r3, Fulfilled r4 =>
      Fulfilled (r1, r2, r3, r4)
  | Rejected e, _, _, _ => Rejected e
  | _, Rejected e, _, _ => Rejected e
  | _, _, Rejected e, _ => Rejected e
  | _, _, _, Rejected e => Rejected e
  end.

(** A world executing the handler's calls: each query of a batch is sent
    as the call names it.  The state counts the batches started, so the
    timer being cleared is that of batch [pred n]. *)
Definition world_exec (w : World)
    (c : StatsCall) (n : nat) : nat * Settled (stats_answer c) :=
  match c with
  | PromiseAll4 q1 q2 q3 q4 =>
      (S n, all4 (tables w n q1) (tables w n q2)
                 (tables w n q3) (tables w n q4))
  | ClearTimeout => (n, Fulfilled (slow w (pred n)))
  end.

(** What the [n]-th batch of the handler comes to in a world. *)
Definition batch (w : World) (n : nat) : Settled Counts :=
  (world_exec w dashboard_queries n).2.

(** One request served in a world. *)
Definition serve_in (w : World)
    (st : StatsCache * nat) (now : Z) (req : Request)
  : (StatsCache * nat) * Response :=
  let '(n', (c', resp), _) :=
    run (world_exec w) st.2 (getStats st.1 now req) in
  ((c', n'), resp).

End Dashboard.

(** ** index.js: the mount table, and middleware/auth.js

    The application-wide middlewares (cors, morgan, the body parsers,
    helmet, the rate limiter) assign no [user] property and are outside the
    model. *)

Module App.

Inductive Router :=
| authRouter | propertyViewsRouter | dashboardRouter | propertiesRouter
| testimonialsRouter | contactSubmissionsRouter | propertyInquiryRouter
| faqRouter | blogRouter | analyticsRouter | profileRouter | usersRouter
| agentsRouter | notificationsRouter.

Inductive Middleware := authenticateToken | isAdmin.

(** The [app.use(path, ...middlewares, router)] lines, in order. *)
Definition mounts : list (string * (list Middleware * Router)) :=
  [ ("/api/auth", ([], authRouter));
    ("/api/property-views", ([], propertyViewsRouter));
    ("/api/dashboard", ([authenticateToken], dashboardRouter));
    ("/api/properties", ([authenticateToken], propertiesRouter));
    ("/api/testimonials", ([authenticateToken], testimonialsRouter));
    ("/api/contact-submissions",
      ([authenticateToken], contactSubmissionsRouter));
    ("/api/property-inquiries",
      ([authenticateToken], propertyInquiryRouter));
    ("/api/faqs", ([authenticateToken], faqRouter));
    ("/api/blogs", ([authenticateToken], blogRouter));
    ("/api/analytics", ([authenticateToken], analyticsRouter));
    ("/api/profile", ([authenticateToken], profileRouter));
    ("/api/users", ([authenticateToken; isAdmin], usersRouter));
    ("/api/agents", ([authenticateToken; isAdmin], agentsRouter));
    ("/api/notifications", ([], notificationsRouter)) ]%string.

Definition mounted (path : string) : option (list Middleware * Router) :=
  snd <$> List.find (fun m => bool_decide (m.1 = path)) mounts.

Definition starts_with (p s : jsstring) : bool :=
  bool_decide (take (length p) s = p).

Fixpoint until_space (s : jsstring) : jsstring :=
  match s with
  | c :: s' => if (c =? 32)%N then [] else c :: until_space s'
  | [] => []
  end.

Fixpoint after_space (s : jsstring) : jsstring :=
  match s with
  | c :: s' => if (c =? 32)%N then s' else after_space s'
  | [] => []
  end.

(** [authHeader.startsWith('Bearer ') ? authHeader.split(' ')[1] : authHeader] *)
Definition header_token (authHeader : jsstring) : jsstring :=
  if starts_with (lit "Bearer ") authHeader
  then until_space (after_space authHeader)
  else authHeader.

Section Middlewares.
(** What follows the extraction of the token in [authenticateToken]:
    [jwt.verify] with the secret and the lookup of the profile row.  It
    yields the [req.user] object, or the 401 response of the failing
    step. *)
Variable identify : jsstring -> Response + User.

Definition run_authenticateToken (req : Request) : Response + Request :=
  let token :=
    match headers_authorization req with
    | Some (c :: h) => Some (header_token (c :: h))
    | _ => None
    end in
  let token :=
    if negb (truthy token) && truthy (query_token_of req)
    then query_token_of req else token in
  if negb (truthy token) then
    inl (status_json 401 (AuthError "No token provided"))
  else
    match identify (default [] token) with
    | inl denied => inl denied
    | inr u =>
        inr {| params_id := params_id req;
               headers_authorization := headers_authorization req;
               query_token_of := query_token_of req;
               ip := ip req;
               user := Some u |}
    end.

Definition run_isAdmin (req : Request) : Response + Request :=
  match user req with
  | None => inl (status_json 401 (AuthError "User not authenticated"))
  | Some u =>
      if bool_decide (role u = JStr (lit "admin")) then inr req
      else inl (status_json 403
                  (AuthError "Access denied. Admin privileges required."))
  end.

Definition run_middleware (m : Middleware) (req : Request)
  : Response + Request :=
  match m with
  | authenticateToken => run_authenticateToken req
  | isAdmin => run_isAdmin req
  end.

(** The chain in front of a router: the first response ends it. *)
Fixpoint through (ms : list Middleware) (req : Request)
  : Response + Request :=
  match ms with
  | [] => inr req
  | m :: ms' =>
      match run_middleware m req with
      | inl r => inl r
      | inr req' => through ms' req'
      end
  end.

(** POST [/api/property-views/:id] as the application serves it. *)
Definition post_property_views (now : Z) (h : HttpRequest)
  : Prog views_answer Response :=
  match mounted "/api/property-views" with
  | Some (ms, _) =>
      match through ms (fresh h) with
      | inl r => Ret r
      | inr req => recordView now req
      end
  | None => Ret (status_json 404 NotFound)
  end.

End Middlewares.

(** GET [/api/dashboard/stats]: the mount's middlewares, then the
    router's own [router.use(authenticateToken)], then the handler.  The
    second pass verifies the token and reads the profile anew, later than
    the first: [identify_again] is what it finds then. *)
Definition get_dashboard_stats
    (identify identify_again : jsstring -> Response + User)
    (c : Dashboard.StatsCache) (now : Z) (h : HttpRequest)
  : Prog Dashboard.stats_answer (Dashboard.StatsCache * Response) :=
  match mounted "/api/dashboard" with
  | Some (ms, _) =>
      match through identify ms (fresh h) with
      | inl r => Ret (c, r)
      | inr req =>
          match run_authenticateToken identify_again req with
          | inl r => Ret (c, r)
          | inr req' => Dashboard.getStats c now req'
          end
      end
  | None => Ret (c, status_json 404 NotFound)
  end.

End App.

(** ** Scenarios *)

Module Scenario.

(** 2024-01-01T10:00:00Z and the calendar day 2024-01-01. *)
Definition t0 : Z := 1704103200000.
Definition day0 : Z := 19723.

(** The id of a listing in [public.properties]. *)
Definition prop1 : jsstring := lit "0b8a5f0e-3c1d-4e2a-9f6b-7d1c2e3f4a5b".
Definition ip1 : jsstring := lit "1.2.3.4".

(** POST /api/property-views/<prop1> from 1.2.3.4, no credentials. *)
Definition http1 : HttpRequest :=
  {| url_id := Some prop1; authorization := None; query_token := None;
     remote_ip := Some ip1 |}.
Definition req1 : Request := fresh http1.

(** The same request arriving without a peer address. *)
Definition req_no_ip : Request :=
  {| params_id := Some prop1; headers_authorization := None;
     query_token_of := None; ip := None; user := None |}.

(** A request whose [:id] is only white space. *)
Definition req_blank : Request :=
  {| params_id := Some (lit "  "); headers_authorization := None;
     query_token_of := None; ip := Some ip1; user := None |}.

(** A view of the listing from 1.2.3.4 stored earlier on the day of [t0]. *)
Definition row1 : PropertyView :=
  {| pv_id := GenId 0; property_id := prop1; profiles_id := None;
     viewed_at := 1704096000000; ip_address := ip1; viewed_date := day0 |}.

Definition db1 : Db :=
  {| property_views := [row1]; next_id := 1%N; db_clock := t0;
     db_properties := [prop1]; db_profiles := [] |}.

(** The same database before that view. *)
Definition db0 : Db :=
  {| property_views := []; next_id := 0%N; db_clock := 0;
     db_properties := [prop1]; db_profiles := [] |}.

(** A row object that names only columns of the table and brings the
    address: what a client honouring the schema would send. *)
Definition full_row : JsObject :=
  {[ "property_id"%string := JStr prop1;
     "ip_address"%string := JStr ip1;
     "viewed_date"%string := JIso t0 ]}.

(** Such a client, as a program. *)
Definition insert_full : Prog views_answer Response :=
  Await (InsertPropertyViews Admin [full_row])
    (fun _ => Ret (json (ViewCount None))).

Definition conflict : Settled InsertResult :=
  Fulfilled {| insert_error := Some (UniqueViolation "unique_ip_view_24h") |}.

Definition record_failed : Response :=
  status_json 500 (Failure "Failed to record property view").

(** A token check that knows nobody. *)
Definition nobody (token : jsstring) : Response + User :=
  inl (status_json 401 (AuthError "Invalid token")).

Definition q (n : N) : CountResult :=
  {| count := Some n; count_error := None |}.
Definition q_failed : CountResult :=
  {| count := None; count_error := Some UndefinedColumn |}.

(** Batches: all four queries answer; the second query fails; the whole
    batch rejects. *)
Definition counts_ok : Dashboard.Counts := (q 12, q 7, q 3, q 2).
Definition counts_degraded : Dashboard.Counts := (q 12, q_failed, q 3, q 2).
Definition outage : Js.error := {| message := "fetch failed" |}.

(** The store as three successive batches find it: in order, then down,
    then with the profiles query failing. *)
Definition script (n : nat) : Settled Dashboard.Counts :=
  match n with
  | 0%nat => Fulfilled counts_ok
  | 1%nat => Rejected outage
  | _ => Fulfilled counts_degraded
  end.

(** Tables that answer the four queries of the handler -- the profiles
    query with an error object -- and let any other query reject. *)
Definition answers (cq : Dashboard.CountQuery) : Settled CountResult :=
  match Dashboard.from cq, Dashboard.select cq,
        Dashboard.eq_column cq, Dashboard.eq_value cq with
  | "properties", "id", "verified", JBool true => Fulfilled (q 12)
  | "profiles", "profiles_id", "status", JStr v =>
      if bool_decide (v = lit "active") then Fulfilled q_failed
      else Rejected outage
  | "property_inquiries", "id", "status", JStr v =>
      if bool_decide (v = lit "pending") then Fulfilled (q 3)
      else Rejected outage
  | "contact_submissions", "id", "status", JStr v =>
      if bool_decide (v = lit "pending") then Fulfilled (q 2)
      else Rejected outage
  | _, _, _, _ => Rejected outage
  end%string.

(** Worlds: the tables above answering in time; the same tables answering
    after more than 5 s; every query coming back with an error object;
    the store unreachable. *)
Definition world_degraded : Dashboard.World :=
  {| Dashboard.tables := fun _ => answers;
     Dashboard.slow := fun _ => false |}.
Definition world_late : Dashboard.World :=
  {| Dashboard.tables := fun _ => answers;
     Dashboard.slow := fun _ => true |}.
Definition world_errors : Dashboard.World :=
  {| Dashboard.tables := fun _ _ => Fulfilled q_failed;
     Dashboard.slow := fun _ => false |}.
Definition world_down : Dashboard.World :=
  {| Dashboard.tables := fun _ _ => Rejected outage;
     Dashboard.slow := fun _ => false |}.

(** A signed-in administrator asking for the statistics. *)
Definition admin : User :=
  {| userId := lit "u-1"; email := JStr (lit "admin@example.com");
     role := JStr (lit "admin"); profile := ∅ |}.
Definition req_admin : Request :=
  {| params_id := None; headers_authorization := Some (lit "Bearer t");
     query_token_of := None; ip := Some ip1; user := Some admin |}.

(** The cache as the first batch leaves it at [t0]. *)
Definition cache1 : Dashboard.StatsCache :=
  Dashboard.refreshed Dashboard.statsCache t0
    (Dashboard.stats_of counts_ok).

End Scenario.

(** * Further code of the cited files *)

(** ** Strings: clean ends, splitting *)

(** Neither the first nor the last code unit is white space, and the string
    is not empty. *)
Definition clean (s : jsstring) : Prop :=
  s <> [] /\ (forall c, head s = Some c -> is_white_space c = false)
          /\ (forall c, last s = Some c -> is_white_space c = false).

(** [s.split(sep)] for a one-character separator. *)
Fixpoint split_on (sep : N) (s : jsstring) : list jsstring :=
  match s with
  | [] => [[]]
  | c :: s' =>
      if (c =? sep)%N then [] :: split_on sep s'
      else match split_on sep s' with
           | piece :: pieces => (c :: piece) :: pieces
           | [] => [[c]]
           end
  end.

(** ** index.js: [allowedOrigins] *)

Definition default_origins : list jsstring :=
  [lit "http://localhost:4000"; lit "http://localhost:3000"].

(** [process.env.ALLOWED_ORIGINS ? ....split(',').map(o => o.trim()) : [...]];
    the argument is the environment variable, [None] when it is unset. *)
Definition allowedOrigins (env : option jsstring) : list jsstring :=
  if truthy env then trim <$> split_on 44 (default [] env)
  else default_origins.

(** ** middleware/auth.js: what follows the extraction of the token *)

Module Auth.

(** The claims of the payload the middleware reads; the tokens the login
    route signs carry both as strings. *)
Record Claims := {
  claim_userId : option jsstring;
  claim_sub : option jsstring
}.

(** [jwt.verify(token, process.env.JWT_SECRET)]: the payload ([None] for a
    falsy one), or the error it throws. *)
Inductive Verified :=
| Payload (c : option Claims)
| Throws (name message : string).

(** What [.from('profiles').select('*').eq('profiles_id', id).single()]
    resolves to. *)
Record Single := {
  single_data : option JsObject;
  single_error : option PgError
}.

(** The 401 bodies of the middleware after a token was found; [details] is
    the [error.message] of the caught error. *)
Inductive Denied :=
| InvalidToken
| MissingUserId
| ProfileNotFound
| TokenExpired
| AuthenticationFailed (details : string).

Definition denied_error (d : Denied) : string :=
  match d with
  | InvalidToken => "Invalid token"
  | MissingUserId => "Invalid token: missing user ID"
  | ProfileNotFound => "User profile not found"
  | TokenExpired => "Token expired"
  | AuthenticationFailed _ => "Authentication failed"
  end.

(** [Body] shows the [error] field of the reply; the [details] of
    "Authentication failed" stay in [Denied]. *)
Definition deny (d : Denied) : Response :=
  status_json 401 (AuthError (denied_error d)).

(** [a || b] on values that are strings or undefined. *)
Definition or_else (a b : option jsstring) : option jsstring :=
  if truthy a then a else b.

(** A column of the profile row; [select('*')] returns every column, so a
    key that is absent is read like [null]. *)
Definition column (row : JsObject) (k : string) : Js.value :=
  default JNull (row !! k).

Section Identify.
Variable verify : jsstring -> Verified.
Variable find_profile : jsstring -> Settled Single.

Definition identify_steps (token : jsstring) : Denied + User :=
  match verify token with
  | Throws name msg =>
      if bool_decide (name = "TokenExpiredError"%string)
      then inl TokenExpired
      else inl (AuthenticationFailed msg)
  | Payload None => inl InvalidToken
  | Payload (Some decoded) =>
      let userId := or_else (claim_userId decoded) (claim_sub decoded) in
      if negb (truthy userId) then inl MissingUserId
      else
        let userId := default [] userId in
        match find_profile userId with
        | Rejected e =>                (* caught; not a TokenExpiredError *)
            inl (AuthenticationFailed (message e))
        | Fulfilled {| single_data := Some profile; single_error := None |} =>
            inr {| userId := userId;
                   email := column profile "email";
                   role := column profile "role";
                   profile := profile |}
        | Fulfilled _ => inl ProfileNotFound
        end
  end.

Definition identify (token : jsstring) : Response + User :=
  match identify_steps token with
  | inl d => inl (deny d)
  | inr u => inr u
  end.
End Identify.

End Auth.

(** ** The SQL helpers [get_property_views] and [get_user_total_views] *)

Module Sql.

(** The columns of [public.properties] the helpers read. *)
Record Property := {
  prop_id : jsstring;                  (* id *)
  prop_owner : jsstring                (* profiles_id, NOT NULL *)
}.

(** [COUNT( * )::integer]: the cast fails outside the range of [integer]. *)
Definition to_integer (n : nat) : option Z :=
  if Z.of_nat n <=? 2147483647 then Some (Z.of_nat n) else None.

(** [SELECT COUNT( * )::integer FROM property_views
      WHERE property_id = property_uuid] *)
Definition get_property_views (db : Db) (property_uuid : jsstring)
  : option Z :=
  to_integer
    (length (List.filter (fun pv => bool_decide (property_id pv = property_uuid))
                         (property_views db))).

(** [property_views pv JOIN properties p ON p.id = pv.property_id] *)
Definition joined (db : Db) (properties : list Property)
  : list (PropertyView * Property) :=
  pv ← property_views db;
  p ← List.filter (fun p => bool_decide (prop_id p = property_id pv))
                  properties;
  [(pv, p)].

(** [SELECT COUNT( * )::integer FROM ... WHERE p.profiles_id = user_uuid] *)
Definition get_user_total_views (db : Db) (properties : list Property)
    (user_uuid : jsstring) : option Z :=
  to_integer
    (length (List.filter (fun '(pv, p) => bool_decide (prop_owner p = user_uuid))
                         (joined db properties))).

(** The views of the properties of one owner, property by property. *)
Definition views_by_property (db : Db) (properties : list Property)
    (user_uuid : jsstring) : nat :=
  sum_list_with
    (fun p => length (List.filter
                        (fun pv => bool_decide (property_id pv = prop_id p))
                        (property_views db)))
    (List.filter (fun p => bool_decide (prop_owner p = user_uuid)) properties).

End Sql.

(** ** routes/dashboard.js: GET [/recent-inquiries] *)

Module RecentInquiries.

(** A column value in a returned row: a string, or [None] for [null]. *)
Definition Field : Type := option jsstring.

(** [profiles:profiles_id (firstname, lastname, email)] *)
Record ProfileRef := {
  firstname : Field;
  lastname : Field;
  profile_email : Field
}.

(** A row of the select; the embedded [profiles] and [property] objects are
    [null] when the store returns no row for them. *)
Record Inquiry := {
  inquiry_id : Field;
  inquiry_message : Field;
  subject : Field;
  inquiry_status : Field;
  created_at : Field;
  profiles : option ProfileRef;
  property_title : option Field        (* property: { title } *)
}.

(** An element of [formattedData]. *)
Record Formatted := {
  out_id : Field;
  out_name : jsstring;
  out_email : Field;
  out_property : Field;
  out_date : Field;
  out_status : Field
}.

(** A value inside a template literal: [null] reads "null". *)
Definition interpolate (f : Field) : jsstring := default (lit "null") f.

(** The body of [data.map(inquiry => ...)] for one row; [None] is the
    TypeError of reading [inquiry.profiles.firstname] on [null]. *)
Definition format (inquiry : Inquiry) : option Formatted :=
  match profiles inquiry with
  | None => None
  | Some p =>
      Some {| out_id := inquiry_id inquiry;
              out_name := trim (interpolate (firstname p) ++ 32%N
                                  :: interpolate (lastname p));
              out_email := profile_email p;
              out_property :=
                match property_title inquiry with
                | Some t => t
                | None => Some (lit "Unknown Property")
                end;
              out_date := created_at inquiry;
              out_status := inquiry_status inquiry |}
  end.

Record Selected := {
  selected_data : option (list Inquiry);
  selected_error : option PgError
}.

(** The one query of the handler; [since] is the instant [twentyDaysAgo]
    holds after [setDate(getDate() - 20)], which the host's time zone
    decides. *)
Inductive InquiriesCall :=
| SelectRecentInquiries (since : Z) (limit : N).

Definition inquiries_answer (c : InquiriesCall) : Type := Selected.

Inductive Reply :=
| Listed (items : list Formatted)      (* 200, the array *)
| FetchFailed.                         (* 500, { error: 'Failed to fetch recent inquiries' } *)

Definition recentInquiries (since : Z) : Prog inquiries_answer Reply :=
  Await (SelectRecentInquiries since 5) (fun selected =>
    match selected with
    | Fulfilled {| selected_data := Some data; selected_error := None |} =>
        match mapM format data with
        | Some formattedData => Ret (Listed formattedData)
        | None => Ret FetchFailed
        end
    | _ => Ret FetchFailed
    end).

(** A store that answers the select with [a]. *)
Definition answering (a : Settled Selected) (c : InquiriesCall) (u : unit)
  : unit * Settled (inquiries_answer c) := (u, a).

End RecentInquiries.

(** ** A sequence of requests for the statistics *)

(** Requests served one after the other, each at its own [now]: in a
    world, and by a scripted store that answers in time. *)
Fixpoint serve_all_in (w : Dashboard.World)
    (st : Dashboard.StatsCache * nat) (requests : list (Z * Request))
  : (Dashboard.StatsCache * nat) * list Response :=
  match requests with
  | [] => (st, [])
  | (now, req) :: rest =>
      let '(st', r) := Dashboard.serve_in w st now req in
      let '(st'', rs) := serve_all_in w st' rest in
      (st'', r :: rs)
  end.

Fixpoint serve_all (outcomes : nat -> Settled Dashboard.Counts)
    (st : Dashboard.StatsCache * nat) (requests : list (Z * Request))
  : (Dashboard.StatsCache * nat) * list Response :=
  match requests with
  | [] => (st, [])
  | (now, req) :: rest =>
      let '(st', r) := Dashboard.serve outcomes st now req in
      let '(st'', rs) := serve_all outcomes st' rest in
      (st'', r :: rs)
  end.

(** ** A row object that follows the schema *)



(** ** More scenarios *)

Module Cases.
Import Scenario Auth RecentInquiries.

Definition claims1 : Claims :=
  {| claim_userId := Some (lit "u-1"); claim_sub := Some (lit "u-1") |}.

(** The profile row of u-1: an ordinary user, whatever the token says. *)
Definition profile_user : JsObject :=
  {[ "profiles_id"%string := JStr (lit "u-1");
     "email"%string := JStr (lit "u1@example.com");
     "role"%string := JStr (lit "user") ]}.
Definition profile_admin : JsObject :=
  <[ "role"%string := JStr (lit "admin") ]> profile_user.

Definition verify1 (token : jsstring) : Verified :=
  if bool_decide (token = lit "good") then Payload (Some claims1)
  else if bool_decide (token = lit "old")
       then Throws "TokenExpiredError" "jwt expired"
       else Throws "JsonWebTokenError" "jwt malformed".

Definition find_user (id : jsstring) : Settled Single :=
  if bool_decide (id = lit "u-1")
  then Fulfilled {| single_data := Some profile_user; single_error := None |}
  else Fulfilled {| single_data := None;
                    single_error := Some UndefinedColumn |}.
Definition find_admin (id : jsstring) : Settled Single :=
  if bool_decide (id = lit "u-1")
  then Fulfilled {| single_data := Some profile_admin; single_error := None |}
  else Fulfilled {| single_data := None;
                    single_error := Some UndefinedColumn |}.

Definition http_good : HttpRequest :=
  {| url_id := None; authorization := Some (lit "Bearer good");
     query_token := Some (lit "old"); remote_ip := Some ip1 |}.
Definition http_anonymous : HttpRequest :=
  {| url_id := None; authorization := None; query_token := None;
     remote_ip := Some ip1 |}.

Definition owner1 : jsstring := lit "u-1".
Definition properties1 : list Sql.Property :=
  [ {| Sql.prop_id := prop1; Sql.prop_owner := owner1 |};
    {| Sql.prop_id := lit "prop-2"; Sql.prop_owner := lit "u-2" |} ].

Definition inquiry1 : Inquiry :=
  {| inquiry_id := Some (lit "i-1"); inquiry_message := Some (lit "hello");
     subject := None; inquiry_status := Some (lit "pending");
     created_at := Some (lit "2024-01-01T10:00:00+00:00");
     profiles := Some {| firstname := Some (lit "Ada"); lastname := None;
                         profile_email := Some (lit "ada@example.com") |};
     property_title := None |}.
Definition inquiry_orphan : Inquiry :=
  {| inquiry_id := Some (lit "i-2"); inquiry_message := None;
     subject := None; inquiry_status := Some (lit "pending");
     created_at := Some (lit "2024-01-02T10:00:00+00:00");
     profiles := None; property_title := Some (Some (lit "Villa")) |}.

Definition http_expired : HttpRequest :=
  {| url_id := None; authorization := None;
     query_token := Some (lit "old"); remote_ip := Some ip1 |}.

(** [req.user] for u-1 as the middleware builds it from a profile row. *)
Definition user_of (row : JsObject) : User :=
  {| userId := lit "u-1"; email := column row "email";
     role := column row "role"; profile := row |}.

(** The request of [http_good] once let through. *)
Definition passed (row : JsObject) : Request :=
  {| params_id := None; headers_authorization := Some (lit "Bearer good");
     query_token_of := Some (lit "old"); ip := Some ip1;
     user := Some (user_of row) |}.

Definition origins_env : jsstring :=
  lit " https://admin.example.com ,https://www.example.com".

(** The table of [db0] after one schema-following view of the listing. *)
Definition db_one : Db :=
  {| property_views :=
       [ {| pv_id := GenId 0; property_id := prop1; profiles_id := None;
            viewed_at := 0; ip_address := ip1; viewed_date := day0 |} ];
     next_id := 1%N; db_clock := 0;
     db_properties := [prop1]; db_profiles := [] |}.

Definition selected (l : list Inquiry) : Settled Selected :=
  Fulfilled {| selected_data := Some l; selected_error := None |}.

End Cases.

(** * Properties *)

(** ** The table store *)

Section StoreFacts.
Implicit Types (db : Db) (o : JsObject) (r : PropertyView).

(** A row object is accepted only if it brings an [ip_address]: the column
    is NOT NULL and has no default. *)
Lemma insert_row_needs_ip db o :
  o !! "ip_address"%string = None -> exists e, insert_row db o = inl e.
Proof.
  intros Hip. unfold insert_row. rewrite Hip.
  case_bool_decide; [|eauto].
  destruct (uuid_cell "id" _); [simpl; eauto|].
  destruct (uuid_cell "property_id" _); [simpl; eauto|].
  destruct (uuid_cell "profiles_id" _); [simpl; eauto|].
  destruct (time_cell "viewed_at" _); [simpl; eauto|].
  destruct (time_cell "viewed_date" _); [simpl; eauto|].
  cbn [bind_pg text_cell].
  destruct (not_null "id" _); [simpl; eauto|].
  destruct (not_null "property_id" _); [simpl; eauto|].
  destruct (not_null "viewed_at" _); simpl; eauto.
Qed.

(** An accepted row is appended, and its key was not in the index. *)
Lemma insert_row_inr db o db' :
  insert_row db o = inr db' ->
  exists r, property_views db' = property_views db ++ [r] /\
            triple r ∉ triple <$> property_views db.
Proof.
  unfold insert_row. case_bool_decide; [|discriminate].
  repeat match goal with
         | |- context [bind_pg ?m _] => destruct m; cbn [bind_pg]; [discriminate|]
         end.
  repeat case_bool_decide; try discriminate.
  repeat match goal with
         | |- context [bind_pg ?m _] => destruct m; cbn [bind_pg]; [discriminate|]
         end.
  intros [= <-]. simpl. eauto.
Qed.

Lemma insert_row_unique db o db' :
  unique_triples db -> insert_row db o = inr db' -> unique_triples db'.
Proof.
  unfold unique_triples. intros Hdb Hins.
  destruct (insert_row_inr _ _ _ Hins) as (r & -> & Hnew).
  rewrite fmap_app. apply NoDup_app. split; [done|]. split.
  - intros x Hx [->|[]%elem_of_nil]%elem_of_cons. done.
  - apply NoDup_singleton.
Qed.

Lemma insert_rows_unique rows : forall db db',
  unique_triples db -> insert_rows db rows = inr db' -> unique_triples db'.
Proof.
  induction rows as [|o rows IH]; simpl; intros db db' Hdb.
  - by intros [= <-].
  - destruct (insert_row db o) as [e|db1] eqn:Ho; simpl; [discriminate|].
    eauto using insert_row_unique.
Qed.

(** An insert that reports an error has changed nothing. *)
Lemma pg_insert_error_unchanged db rows :
  insert_error (pg_insert db rows).2 <> None -> (pg_insert db rows).1 = db.
Proof. unfold pg_insert. destruct (insert_rows db rows); simpl; congruence. Qed.

Lemma pg_exec_unique c db :
  unique_triples db -> unique_triples (pg_exec c db).1.
Proof.
  destruct c as [[|] rows|cl col v]; simpl; [done| |done].
  unfold pg_insert. destruct (insert_rows db rows) eqn:Hr; simpl; [done|].
  eauto using insert_rows_unique.
Qed.

Lemma filter_key_absent {A K} `{EqDecision K} (f : A -> K) k (l : list A) :
  k ∉ f <$> l -> List.filter (fun x => bool_decide (f x = k)) l = [].
Proof.
  induction l as [|x l IH]; simpl; [done|].
  rewrite not_elem_of_cons. intros [Hx Hl].
  rewrite bool_decide_eq_false_2; auto.
Qed.

Lemma filter_key_NoDup {A K} `{EqDecision K} (f : A -> K) k (l : list A) :
  NoDup (f <$> l) ->
  (length (List.filter (fun x => bool_decide (f x = k)) l) <= 1)%nat.
Proof.
  induction l as [|x l IH]; simpl; [lia|].
  rewrite NoDup_cons. intros [Hx Hl]. case_bool_decide as Hk; [|auto].
  subst k. rewrite filter_key_absent; [simpl; lia|done].
Qed.

(** Under the invariant, a key selects at most one row. *)
Lemma unique_rows_with db P ip day :
  unique_triples db -> (length (rows_with P ip day db) <= 1)%nat.
Proof. apply filter_key_NoDup. Qed.

End StoreFacts.

(** ** The row object of the POST handler *)

Section ViewRow.
Implicit Types (db : Db) (req : Request) (now : Z) (P : jsstring).

Lemma view_row_user_id now req P :
  view_row now req P !! "user_id"%string
  = Some (match user req with Some u => JStr (userId u) | None => JNull end).
Proof. unfold view_row. by simplify_map_eq. Qed.

Lemma view_row_ip_address now req P :
  view_row now req P !! "ip_address"%string = None.
Proof. unfold view_row. by simplify_map_eq. Qed.

Lemma view_row_viewed_date now req P :
  view_row now req P !! "viewed_date"%string = Some (JIso now).
Proof. unfold view_row. by simplify_map_eq. Qed.

(** The table has no [user_id] column, so the object is turned down
    before any constraint is looked at. *)
Lemma view_row_rejected db now req P :
  insert_row db (view_row now req P) = inl UndefinedColumn.
Proof.
  unfold insert_row. rewrite bool_decide_eq_false_2; [done|].
  intros Hall. specialize (Hall _ _ (view_row_user_id now req P)).
  simpl in Hall. unfold columns in Hall.
  repeat (apply elem_of_cons in Hall as [Hall|Hall]; [discriminate|]).
  by apply elem_of_nil in Hall.
Qed.

Lemma pg_insert_view_row db now req P :
  pg_insert db [view_row now req P]
  = (db, {| insert_error := Some UndefinedColumn |}).
Proof. unfold pg_insert. simpl. by rewrite view_row_rejected. Qed.

(** [!propertyId] after [req.params.id?.trim()] *)
Lemma truthy_trimmed req raw :
  params_id req = Some raw -> trim raw <> [] ->
  truthy (trim <$> params_id req) = true
  /\ default [] (trim <$> params_id req) = trim raw.
Proof. intros -> Hne. simpl. by destruct (trim raw). Qed.

Lemma falsy_blank req :
  params_id req = None \/
  (exists raw, params_id req = Some raw /\ trim raw = []) ->
  truthy (trim <$> params_id req) = false.
Proof. intros [->|(raw & -> & Hb)]; simpl; [done|]. by rewrite Hb. Qed.
End ViewRow.

Import Scenario.

(** ** POST /api/property-views/:id *)

(** C1, as amended.  For every recordView call with a usable property id,
    whenever the store's insert rejects or reports an error -- a uniqueness
    conflict on (propertyId, viewerIp, viewedDate) included -- the handler
    reads no count and answers with the failure response 500 "Failed to
    record property view"; and an insert that reports an error has left the
    table as it was, so no second row exists. *)
Theorem recordView_insert_error_is_failure
    (now : Z) (req : Request) (raw : jsstring)
    (ins : Settled InsertResult) (db : Db) :
  params_id req = Some raw -> trim raw <> [] ->
  insert_failed ins ->
  run (answered_insert ins) db (recordView now req)
  = (db, status_json 500 (Failure "Failed to record property view"),
     [InsertPropertyViews Admin [view_row now req (trim raw)]])
  /\ (forall db0 rows, insert_error (pg_insert db0 rows).2 <> None ->
                       (pg_insert db0 rows).1 = db0).
Proof.
  intros Hid Hne Hfail.
  destruct (truthy_trimmed req raw Hid Hne) as [Ht Hd].
  split; [|apply pg_insert_error_unchanged].
  unfold recordView. rewrite Ht, Hd. simpl.
  destruct ins as [[[e|]]|e]; simpl in *; congruence.
Qed.

Lemma recordView_insert_error_is_failure_witness :
  insert_failed conflict /\
  run (answered_insert conflict) db1 (recordView t0 req1)
  = (db1, record_failed,
     [InsertPropertyViews Admin [view_row t0 req1 prop1]]).
Proof.
  split; [simpl; congruence|].
  apply (recordView_insert_error_is_failure t0 req1 prop1 conflict db1).
  - reflexivity.
  - vm_compute. congruence.
  - simpl. congruence.
Defined.

(** C1 as stated fails.  The table holds a row for the listing, 1.2.3.4 and
    2024-01-01; the same viewer asks again on that day.  The store turns
    the insert down, and a uniqueness conflict reported by the store is
    treated like any other error: in both cases the caller gets the 500
    failure response, not success with the current count. *)
Lemma recordView_duplicate_is_failure :
  rows_with prop1 ip1 (date_of t0) db1 = [row1]
  /\ ip req1 = Some ip1
  /\ (pg_insert db1 [full_row]).2 = {| insert_error := Some (UniqueViolation "unique_ip_view_24h") |}
  /\ (run pg_await db1 (recordView t0 req1)).1.2 = record_failed
  /\ (run (answered_insert conflict) db1 (recordView t0 req1)).1.2
     = record_failed
  /\ ~ is_success record_failed.
Proof.
  repeat split; try (vm_compute; reflexivity).
  intros [n Hn]. discriminate Hn.
Qed.

(** C3: the code at the failing input.  The object the handler inserts has
    no [ip_address] key, its [viewed_date] is the full timestamp string, and
    its third key names no column; the table turns it down, the caller gets
    500, and no row is created. *)
Lemma recordView_row_has_no_ip :
  view_row t0 req1 prop1 !! "ip_address"%string = None
  /\ view_row t0 req1 prop1 !! "viewed_date"%string = Some (JIso t0)
  /\ dom (view_row t0 req1 prop1)
     = ({[ "property_id"; "viewed_date"; "user_id" ]}%string : gset string)
  /\ run pg_await empty_db (recordView t0 req1)
     = (empty_db, record_failed,
        [InsertPropertyViews Admin [view_row t0 req1 prop1]])
  /\ (exists e, insert_row empty_db
                  (delete "user_id"%string (view_row t0 req1 prop1)) = inl e).
Proof.
  split; [apply view_row_ip_address|].
  split; [apply view_row_viewed_date|].
  split; [unfold view_row; rewrite !dom_insert_L, dom_singleton_L; set_solver|].
  split; [vm_compute; reflexivity|].
  apply insert_row_needs_ip. rewrite lookup_delete_ne by done.
  apply view_row_ip_address.
Qed.

(** C4: the code at the failing input.  The table holds one view of the
    listing.  A view of it on the next day -- no duplicate -- is answered
    with 500 like every other: the insert is turned down, no count is read,
    and no call returns a count at all.  The count the handler would read
    is asked through the anon client, which row-level security lets see no
    row: it is 0 where the table holds one row of the listing, and the
    service-role client, which the insert uses, counts 1. *)
Lemma recordView_returns_no_total :
  count_rows prop1 db1 = 1%N
  /\ run pg_await db1 (recordView (t0 + ms_per_day) req1)
     = (db1, record_failed,
        [InsertPropertyViews Admin [view_row (t0 + ms_per_day) req1 prop1]])
  /\ (pg_exec (CountPropertyViews Anon "property_id" (JStr prop1)) db1).2
     = {| count := Some 0%N; count_error := None |}
  /\ (pg_exec (CountPropertyViews Admin "property_id" (JStr prop1)) db1).2
     = {| count := Some 1%N; count_error := None |}.
Proof. repeat split; vm_compute; reflexivity. Qed.

(** C5, as amended.  For every recordView call whose property id is missing
    or blank (empty once trimmed), the call ends with the validation
    response 400 "Invalid property ID" and no store operation is attempted,
    whatever the store. *)
Theorem recordView_blank_id_rejected {St : Type}
    (exec : forall c : ViewsCall, St -> St * Settled (views_answer c))
    (s : St) (now : Z) (req : Request) :
  params_id req = None \/
  (exists raw, params_id req = Some raw /\ trim raw = []) ->
  run exec s (recordView now req)
  = (s, status_json 400 (Failure "Invalid property ID"), []).
Proof.
  intros Hblank. unfold recordView. by rewrite (falsy_blank req Hblank).
Qed.

Lemma recordView_blank_id_rejected_witness :
  run pg_await db1 (recordView t0 req_blank)
  = (db1, status_json 400 (Failure "Invalid property ID"), []).
Proof.
  apply (recordView_blank_id_rejected pg_await db1 t0 req_blank).
  right. exists (lit "  "). split; reflexivity.
Defined.

(** C5 as stated fails on its second case.  A request with a good id and no
    viewer address is not stopped by validation: the insert is sent to the
    store, and the answer is the 500 of a failed insert. *)
Lemma recordView_without_ip_reaches_store :
  ip req_no_ip = None
  /\ run pg_await empty_db (recordView t0 req_no_ip)
     = (empty_db, record_failed,
        [InsertPropertyViews Admin [view_row t0 req_no_ip prop1]]).
Proof. split; vm_compute; reflexivity. Qed.

(** ** GET /api/property-views/:id *)

(** What the two clients count.  The service role counts the rows of the
    table; the anon role counts none of them. *)
Lemma pg_count_admin (db : Db) (P : jsstring) :
  is_uuid P = true ->
  pg_count Admin db "property_id" (JStr P)
  = {| count := Some (count_rows P db); count_error := None |}.
Proof. intros HP. unfold pg_count, eq_filter. cbn. by rewrite HP. Qed.


(** C6: the code at the failing input.  The table holds one view of the
    listing; GET for the listing answers success with count 0, not 1.  The
    handler counts through the anon client, and row-level security, enabled
    on the table with no policy, lets that client see no row; the
    service-role client counts 1.  The table is left as it was. *)
Lemma getViewCount_reads_no_row :
  count_rows prop1 db1 = 1%N
  /\ run pg_await db1 (getViewCount req1)
     = (db1, json (ViewCount (Some 0%N)),
        [CountPropertyViews Anon "property_id" (JStr prop1)])
  /\ (pg_exec (CountPropertyViews Admin "property_id" (JStr prop1)) db1).2
     = {| count := Some 1%N; count_error := None |}.
Proof. repeat split; vm_compute; reflexivity. Qed.

(** ** The unique index under concurrent requests *)

Lemma step_unique (s s' : System) :
  step s s' -> unique_triples s.1 -> unique_triples s'.1.
Proof.
  destruct 1; simpl; auto using pg_exec_unique.
Qed.

Lemma reachable_unique (s0 s : System) :
  reachable s0 s -> unique_triples s0.1 -> unique_triples s.1.
Proof.
  induction 1 as [|s1 s2 s3 Hstep _ IH]; [done|].
  intros H1. apply IH. by apply (step_unique s1).
Qed.

(** C2: the code at the failing input.  Two recordView calls for the
    listing from 1.2.3.4 on 2024-01-01 run concurrently against a table
    with no view, each to its response.  The table still has no row for the
    triple -- zero rows, not one -- and both callers got 500: the row object
    of the handler is turned down whatever the table holds. *)
Lemma concurrent_recordView_leaves_no_row :
  exists s : System,
    reachable (db0, [recordView t0 req1; recordView t0 req1]) s
    /\ s.2 = [Ret record_failed; Ret record_failed]
    /\ rows_with prop1 ip1 (date_of t0) s.1 = [].
Proof.
  eexists. split; [|split].
  - unfold reachable.
    eapply rtc_l; [apply (step_call _ _ 0%nat); reflexivity|].
    eapply rtc_l; [apply (step_call _ _ 1%nat); reflexivity|].
    apply rtc_refl.
  - vm_compute. reflexivity.
  - vm_compute. reflexivity.
Qed.

(** Against the table as the schema defines it, no recordView call stores
    anything. *)
Lemma recordView_never_stores (db : Db) (now : Z) (req : Request) :
  (run pg_await db (recordView now req)).1.1 = db.
Proof.
  unfold recordView. destruct (negb _); [done|].
  simpl. unfold pg_await. simpl. by rewrite pg_insert_view_row.
Qed.

(** ** The route as the application mounts it *)

Lemma property_views_mount :
  App.mounted "/api/property-views" = Some ([], App.propertyViewsRouter).
Proof. reflexivity. Qed.

Lemma post_property_views_unauthenticated
    (identify : jsstring -> Response + User) (now : Z) (h : HttpRequest) :
  App.post_property_views identify now h = recordView now (fresh h).
Proof. reflexivity. Qed.

(** C10.  For every request that reaches the POST handler through the
    application, [req.user] is unset -- the route is mounted with no
    middleware in front of it -- and the row object handed to the store
    carries [user_id: null]. *)
Theorem property_views_user_id_null
    (identify : jsstring -> Response + User) (now : Z) (h : HttpRequest)
    (db : Db) (cl : Client) (rows : list JsObject) (o : JsObject) :
  InsertPropertyViews cl rows
    ∈ (run pg_await db (App.post_property_views identify now h)).2 ->
  o ∈ rows ->
  o !! "user_id"%string = Some JNull.
Proof.
  rewrite post_property_views_unauthenticated. unfold recordView.
  destruct (negb _); simpl; [by intros ?%elem_of_nil|].
  unfold pg_await. simpl. rewrite pg_insert_view_row. simpl.
  intros [Heq|[]%elem_of_nil]%elem_of_cons. injection Heq as -> ->.
  intros [->|[]%elem_of_nil]%elem_of_cons.
  apply view_row_user_id.
Qed.

Lemma property_views_user_id_null_witness :
  view_row t0 req1 prop1 !! "user_id"%string = Some JNull.
Proof.
  apply (property_views_user_id_null nobody t0 http1 empty_db Admin
           [view_row t0 req1 prop1]).
  - vm_compute. left.
  - left.
Defined.

(** ** The dashboard statistics cache *)

Section StatsCacheFacts.
Import Dashboard.
Variable outcomes : nat -> Settled Counts.
Implicit Types (c : StatsCache) (n : nat) (now : Z) (req : Request).

Lemma fresh_payload_hit c now d :
  data c = Some d -> now - timestamp c < cacheDuration c ->
  fresh_payload c now = Some d.
Proof.
  intros Hd Hlt. unfold fresh_payload. rewrite Hd.
  by rewrite (proj2 (Z.ltb_lt _ _) Hlt).
Qed.

Lemma fresh_payload_stale c now :
  stale c now -> fresh_payload c now = None.
Proof.
  unfold fresh_payload. intros [->|Hge]; [done|].
  destruct (data c); [|done].
  by rewrite (proj2 (Z.ltb_ge _ _) Hge).
Qed.

(** A hit: the payload is returned and the queries are not run. *)
Lemma serve_hit c n now req d :
  data c = Some d -> now - timestamp c < cacheDuration c ->
  serve outcomes (c, n) now req = ((c, n), json (stats_body d)).
Proof.
  intros Hd Hlt. unfold serve, getStats. simpl.
  by rewrite (fresh_payload_hit c now d Hd Hlt).
Qed.

(** A miss runs the queries once, whatever comes of them. *)
Lemma serve_stale_runs c n now req :
  stale c now -> (serve outcomes (c, n) now req).1.2 = S n.
Proof.
  intros Hs. unfold serve, getStats. simpl.
  rewrite (fresh_payload_stale c now Hs). simpl.
  by destruct (outcomes n).
Qed.

(** A miss whose batch resolves stores the result with the request's
    [now]. *)
Lemma serve_stale_resolved c n now req qs :
  stale c now -> outcomes n = Fulfilled qs ->
  serve outcomes (c, n) now req
  = ((refreshed c now (stats_of qs), S n), json (stats_body (stats_of qs))).
Proof.
  intros Hs Hq. unfold serve, getStats. simpl.
  rewrite (fresh_payload_stale c now Hs). simpl. by rewrite Hq.
Qed.

(** A miss whose batch rejects answers 500 and writes nothing. *)
Lemma serve_stale_rejected c n now req e :
  stale c now -> outcomes n = Rejected e ->
  serve outcomes (c, n) now req
  = ((c, S n),
     status_json 500
       (StatsError "Failed to fetch dashboard statistics" (message e) 0 0 0)).
Proof.
  intros Hs Hq. unfold serve, getStats. simpl.
  rewrite (fresh_payload_stale c now Hs). simpl. by rewrite Hq.
Qed.

Lemma component_failed (q : CountResult) :
  count_error q <> None -> component q = 0%N.
Proof. unfold component. by destruct (count_error q). Qed.

Variable w : World.

(** A miss in a world: the batch is run, the timer decides which response
    the caller has, and a batch that resolves is stored either way. *)
Lemma serve_in_miss c n now req :
  fresh_payload c now = None ->
  serve_in w (c, n) now req
  = match batch w n with
    | Fulfilled qs =>
        ((refreshed c now (stats_of qs), S n),
         first_sent (slow w n) (json (stats_body (stats_of qs))))
    | Rejected e =>
        ((c, S n),
         first_sent (slow w n)
           (status_json 500
              (StatsError "Failed to fetch dashboard statistics"
                          (message e) 0 0 0)))
    end.
Proof.
  intros Hmiss. unfold serve_in, getStats. cbn [fst snd]. rewrite Hmiss.
  cbn [run].
  change (world_exec w dashboard_queries n) with (S n, batch w n).
  destruct (batch w n) as [qs|e]; reflexivity.
Qed.

Lemma serve_in_hit c n now req d :
  fresh_payload c now = Some d ->
  serve_in w (c, n) now req = ((c, n), json (stats_body d)).
Proof.
  intros Hhit. unfold serve_in, getStats. cbn [fst snd]. by rewrite Hhit.
Qed.

(** The batch the handler sends is the four queries as the source writes
    them, in its order. *)
Lemma batch_dashboard_queries n :
  batch w n
  = all4 (tables w n {| from := "properties"; select := "id";
                        eq_column := "verified"; eq_value := JBool true |})
         (tables w n {| from := "profiles"; select := "profiles_id";
                        eq_column := "status";
                        eq_value := JStr (lit "active") |})
         (tables w n {| from := "property_inquiries"; select := "id";
                        eq_column := "status";
                        eq_value := JStr (lit "pending") |})
         (tables w n {| from := "contact_submissions"; select := "id";
                        eq_column := "status";
                        eq_value := JStr (lit "pending") |}).
Proof. reflexivity. Qed.

Lemma stale_later c now now2 :
  stale c now -> now <= now2 -> stale c now2.
Proof. intros [Hd|Hge] Hle; [by left|right; lia]. Qed.
End StatsCacheFacts.

Import Dashboard.

(** C7.  With the cache duration at 4000 ms: when a payload exists and
    [now - timestamp < 4000], the payload is returned and the four queries
    are not run; otherwise they are run, and when they resolve the result is
    stored with [timestamp = now].  Hence of two requests within the window
    only the first runs the queries, and a request once the window is over
    runs them again. *)
Theorem stats_cache_ttl
    (outcomes : nat -> Settled Counts) (c : StatsCache) (n : nat)
    (now : Z) (req : Request) :
  cacheDuration c = 4000 ->
  (forall d, data c = Some d -> now - timestamp c < 4000 ->
     serve outcomes (c, n) now req = ((c, n), json (stats_body d)))
  /\ ((data c = None \/ 4000 <= now - timestamp c) ->
      (serve outcomes (c, n) now req).1.2 = S n
      /\ forall qs, outcomes n = Fulfilled qs ->
           let cached := refreshed c now (stats_of qs) in
           serve outcomes (c, n) now req
           = ((cached, S n), json (stats_body (stats_of qs)))
           /\ timestamp cached = now
           /\ (forall now2 req2, now2 - now < 4000 ->
                 serve outcomes (cached, S n) now2 req2
                 = ((cached, S n), json (stats_body (stats_of qs))))
           /\ (forall now3 req3, 4000 <= now3 - now ->
                 (serve outcomes (cached, S n) now3 req3).1.2 = S (S n))).
Proof.
  intros Httl. split.
  - intros d Hd Hlt. apply serve_hit; [done|]. by rewrite Httl.
  - intros Hstale. assert (stale c now) as Hs by (by unfold stale; rewrite Httl).
    split; [by apply serve_stale_runs|].
    intros qs Hq cached. split; [by apply serve_stale_resolved|].
    split; [done|]. split.
    + intros now2 req2 Hlt. apply serve_hit; [done|]. simpl. by rewrite Httl.
    + intros now3 req3 Hge. apply serve_stale_runs. right. simpl.
      by rewrite Httl.
Qed.

(** C8, as amended.  Whenever the queries are run and the batch rejects --
    an exception reaches the catch blocks -- the cache object is left
    exactly as it was, and the caller has the 500 failure response, or the
    408 of the timer when the 5 s were over before the batch rejected.
    What the cache keeps is a payload whose window is over, or none: the
    next request, at whatever later instant, runs the queries again. *)
Theorem stats_rejection_keeps_cache
    (w : World) (c : StatsCache) (n : nat)
    (now : Z) (req : Request) (e : Js.error) :
  stale c now ->
  batch w n = Rejected e ->
  serve_in w (c, n) now req
  = ((c, S n),
     if slow w n then
       status_json 408
         (StatsTimeout "Request timeout while fetching dashboard statistics"
                       0 0 0)
     else
       status_json 500
         (StatsError "Failed to fetch dashboard statistics" (message e)
                     0 0 0))
  /\ (forall now2 req2, now <= now2 ->
        (serve_in w (c, S n) now2 req2).1.2 = S (S n)).
Proof.
  intros Hs Hq. split.
  - rewrite (serve_in_miss w c n now req (fresh_payload_stale c now Hs)).
    rewrite Hq. reflexivity.
  - intros now2 req2 Hle.
    rewrite (serve_in_miss w c (S n) now2 req2
               (fresh_payload_stale c now2 (stale_later c now now2 Hs Hle))).
    by destruct (batch w (S n)).
Qed.

(** C8 as stated fails.  The cache holds the payload of 12 listings, 7
    users and 5 inquiries, and its window is over.  Each of the four
    queries of the next batch comes back with an error object: nothing was
    computed, yet the handler answers 200 with zeros and overwrites the
    cache slot with them and the new timestamp; the zeros are then served
    for the next four seconds. *)
Lemma stats_query_errors_overwrite_cache :
  let zeros := {| data := Some {| totalProperties := 0; activeUsers := 0;
                                  pendingInquiries := 0 |};
                  timestamp := t0 + 4000; cacheDuration := 4000 |} in
  cache1 = {| data := Some {| totalProperties := 12; activeUsers := 7;
                              pendingInquiries := 5 |};
              timestamp := t0; cacheDuration := 4000 |}
  /\ batch world_errors 1
     = Fulfilled (q_failed, q_failed, q_failed, q_failed)
  /\ serve_in world_errors (cache1, 1%nat) (t0 + 4000) req_admin
     = ((zeros, 2%nat), json (StatsBody 0 0 0))
  /\ serve_in world_errors (zeros, 2%nat) (t0 + 7999) req_admin
     = ((zeros, 2%nat), json (StatsBody 0 0 0)).
Proof. repeat split; vm_compute; reflexivity. Qed.

(** C9, as amended.  Whenever the queries are run and each of the four --
    verified properties, active profiles, pending property inquiries,
    pending contact submissions -- comes back, with or without an error
    object, the handler computes: 0 for each query that carries an error
    and [count || 0] for the others, [pendingInquiries] being the sum of
    the pending property inquiries and the pending contact submissions.  It
    stores that result -- zeros included -- with [timestamp = now] and
    returns it to every request of the following [cacheDuration]
    milliseconds without running the queries.  The caller of the request
    itself has that result with status 200 when the batch settled within
    the 5 s of the timer, and the 408 of the timer otherwise. *)
Theorem stats_degraded_is_cached
    (w : World) (c : StatsCache) (n : nat)
    (now : Z) (req : Request) (r1 r2 r3 r4 : CountResult) :
  stale c now ->
  tables w n {| from := "properties"; select := "id";
                eq_column := "verified"; eq_value := JBool true |}
  = Fulfilled r1 ->
  tables w n {| from := "profiles"; select := "profiles_id";
                eq_column := "status"; eq_value := JStr (lit "active") |}
  = Fulfilled r2 ->
  tables w n {| from := "property_inquiries"; select := "id";
                eq_column := "status"; eq_value := JStr (lit "pending") |}
  = Fulfilled r3 ->
  tables w n {| from := "contact_submissions"; select := "id";
                eq_column := "status"; eq_value := JStr (lit "pending") |}
  = Fulfilled r4 ->
  let d := {| totalProperties := component r1;
              activeUsers := component r2;
              pendingInquiries := (component r3 + component r4)%N |} in
  let reply := json (StatsBody (component r1) (component r2)
                               (component r3 + component r4)%N) in
  serve_in w (c, n) now req
  = ((refreshed c now d, S n),
     if slow w n then
       status_json 408
         (StatsTimeout "Request timeout while fetching dashboard statistics"
                       0 0 0)
     else reply)
  /\ (forall q, count_error q <> None -> component q = 0%N)
  /\ (forall q k, count_error q = None -> count q = Some k -> component q = k)
  /\ (forall q, count_error q = None -> count q = None -> component q = 0%N)
  /\ (forall now2 req2, now2 - now < cacheDuration c ->
        serve_in w (refreshed c now d, S n) now2 req2
        = ((refreshed c now d, S n), reply)).
Proof.
  intros Hs H1 H2 H3 H4 d reply.
  split; [|split; [|split; [|split]]].
  - rewrite (serve_in_miss w c n now req (fresh_payload_stale c now Hs)).
    rewrite batch_dashboard_queries, H1, H2, H3, H4. reflexivity.
  - apply component_failed.
  - intros q k He Hc. unfold component. by rewrite He, Hc.
  - intros q He Hc. unfold component. by rewrite He, Hc.
  - intros now2 req2 Hlt.
    apply (serve_in_hit w (refreshed c now d) (S n) now2 req2 d).
    by apply fresh_payload_hit.
Qed.

(** C9 as stated fails on the response.  The four queries come back, the
    profiles query with an error object, but after more than 5 s: by then
    the timer has answered 408, and that is what the caller has -- no
    success -- while the degraded result is stored in the cache all the
    same. *)
Lemma stats_late_batch_is_timeout :
  batch world_late 2 = Fulfilled counts_degraded
  /\ slow world_late 2 = true
  /\ serve_in world_late (cache1, 2%nat) (t0 + 5000) req_admin
     = ((refreshed cache1 (t0 + 5000) (stats_of counts_degraded), 3%nat),
        status_json 408
          (StatsTimeout
             "Request timeout while fetching dashboard statistics" 0 0 0))
  /\ stats_of counts_degraded
     = {| totalProperties := 12; activeUsers := 0; pendingInquiries := 5 |}.
Proof. repeat split; vm_compute; reflexivity. Qed.

(** ** The cache at work *)

Lemma stats_cache_ttl_witness :
  serve script (statsCache, 0%nat) t0 req_admin
  = ((cache1, 1%nat), json (StatsBody 12 7 5))
  /\ serve script (cache1, 1%nat) (t0 + 3999) req_admin
     = ((cache1, 1%nat), json (StatsBody 12 7 5))
  /\ (serve script (cache1, 1%nat) (t0 + 4000) req_admin).1.2 = 2%nat.
Proof.
  destruct (stats_cache_ttl script statsCache 0 t0 req_admin eq_refl)
    as [_ Hmiss].
  destruct (Hmiss (or_introl eq_refl)) as [_ Hq].
  destruct (Hq counts_ok eq_refl) as (H1 & _ & H2 & H3).
  split; [exact H1|]. split; [apply H2; lia|apply H3; lia].
Defined.

Lemma stats_rejection_keeps_cache_witness :
  serve_in world_down (cache1, 1%nat) (t0 + 4000) req_admin
  = ((cache1, 2%nat),
     status_json 500
       (StatsError "Failed to fetch dashboard statistics" "fetch failed"
                   0 0 0))
  /\ (serve_in world_down (cache1, 2%nat) (t0 + 4001) req_admin).1.2
     = 3%nat.
Proof.
  assert (stale cache1 (t0 + 4000)) as Hs by (right; vm_compute; congruence).
  destruct (stats_rejection_keeps_cache world_down cache1 1 (t0 + 4000)
              req_admin outage Hs eq_refl) as [H1 H2].
  split; [exact H1|]. apply H2. lia.
Defined.

Lemma stats_degraded_is_cached_witness :
  serve_in world_degraded (cache1, 2%nat) (t0 + 5000) req_admin
  = ((refreshed cache1 (t0 + 5000) (stats_of counts_degraded), 3%nat),
     json (StatsBody 12 0 5))
  /\ serve_in world_degraded
       (refreshed cache1 (t0 + 5000) (stats_of counts_degraded), 3%nat)
       (t0 + 8999) req_admin
     = ((refreshed cache1 (t0 + 5000) (stats_of counts_degraded), 3%nat),
        json (StatsBody 12 0 5)).
Proof.
  assert (stale cache1 (t0 + 5000)) as Hs by (right; vm_compute; congruence).
  destruct (stats_degraded_is_cached world_degraded cache1 2 (t0 + 5000)
              req_admin (q 12) q_failed (q 3) (q 2) Hs
              eq_refl eq_refl eq_refl eq_refl) as (H1 & _ & _ & _ & H2).
  split; [exact H1|]. apply H2. vm_compute. reflexivity.
Defined.


(** * Further properties *)

(** ** [trim] *)

Section TrimFacts.
Implicit Types (s : jsstring) (c : N).

Lemma trim_start_head s c :
  head (trim_start s) = Some c -> is_white_space c = false.
Proof.
  induction s as [|x s IH]; simpl; [done|].
  destruct (is_white_space x) eqn:Hx; [done|].
  simpl. by intros [= <-].
Qed.

Lemma trim_start_snoc s c :
  is_white_space c = false -> exists m, trim_start (s ++ [c]) = m ++ [c].
Proof.
  intros Hc. induction s as [|x s IH]; simpl.
  - rewrite Hc. by exists [].
  - destruct (is_white_space x); [done|]. by exists (x :: s).
Qed.

Lemma last_rev s : last (rev s) = head s.
Proof. destruct s as [|x s]; simpl; [done|]. apply last_snoc. Qed.

Lemma head_rev_snoc s c : head (rev (s ++ [c])) = Some c.
Proof. by rewrite rev_app_distr. Qed.

(** What [trim] returns is empty, or begins and ends with a code unit that
    is not white space. *)
Lemma trim_clean s : trim s = [] \/ clean (trim s).
Proof.
  unfold trim, trim_end.
  destruct (trim_start s) as [|c t] eqn:Ht; [by left|right].
  assert (is_white_space c = false) as Hc
    by (apply (trim_start_head s); by rewrite Ht).
  simpl rev. destruct (trim_start_snoc (rev t) c Hc) as [m Hm].
  rewrite Hm. split; [|split].
  - rewrite rev_app_distr. done.
  - intros c'. rewrite head_rev_snoc. by intros [= <-].
  - intros c'. rewrite last_rev, <- Hm. apply trim_start_head.
Qed.
End TrimFacts.

(** ** The two handlers against any store *)

(** Cases on what a store answered to an insert or a count. *)
Ltac insert_cases exec s s1 :=
  let a := fresh "a" in let r := fresh "r" in let e := fresh "e" in
  destruct (exec (InsertPropertyViews _ _) s) as [s1 a];
  destruct a as [r|e]; [cbn in r; destruct r as [[e|]]|]; simpl.

Ltac count_cases exec s s2 :=
  let a := fresh "a" in let r := fresh "r" in let e := fresh "e" in
  let n := fresh "n" in
  destruct (exec (CountPropertyViews _ _ _) s) as [s2 a];
  destruct a as [r|e]; [cbn in r; destruct r as [n [e|]]|]; simpl.

Section AnyStore.
Context {St : Type}
        (exec : forall c : ViewsCall, St -> St * Settled (views_answer c)).
Implicit Types (s : St) (req : Request) (now : Z).

Lemma trimmed_id_clean req :
  truthy (trim <$> params_id req) = true ->
  exists raw, params_id req = Some raw
              /\ default [] (trim <$> params_id req) = trim raw
              /\ clean (trim raw).
Proof.
  destruct (params_id req) as [raw|]; simpl; [|done].
  intros Ht. exists raw. split; [done|]. split; [done|].
  destruct (trim_clean raw) as [He|Hc]; [|done]. by rewrite He in Ht.
Qed.

Lemma view_row_property_id now req P :
  view_row now req P !! "property_id"%string = Some (JStr P).
Proof. unfold view_row. by simplify_map_eq. Qed.

(** X1.  Whatever the store answers, recordView ends in one of three ways.
    No call and the 400 validation response.  One insert of the row for the
    trimmed id, which the store rejected or answered with an error, and the
    500 response.  That insert, answered without error, followed by one
    count filtered on the same id: the response is then success with
    exactly the count the store answered, or 500 when the count was
    rejected or came with an error.  The store is left as these calls leave
    it, in this order; the handler never counts before inserting and never
    inserts twice. *)
Theorem recordView_protocol s now req :
  let '(s', r, tr) := run exec s (recordView now req) in
  (tr = [] /\ s' = s
   /\ r = status_json 400 (Failure "Invalid property ID"))
  \/ exists raw, params_id req = Some raw /\ clean (trim raw) /\
       let ins := InsertPropertyViews Admin [view_row now req (trim raw)] in
       let cnt := CountPropertyViews Anon "property_id" (JStr (trim raw)) in
       let s1 := (exec ins s).1 in
       (insert_failed (exec ins s).2 /\ tr = [ins] /\ s' = s1
        /\ r = status_json 500 (Failure "Failed to record property view"))
       \/ ((exec ins s).2 = Fulfilled {| insert_error := None |}
           /\ tr = [ins; cnt] /\ s' = (exec cnt s1).1
           /\ ((count_failed (exec cnt s1).2
                /\ r = status_json 500
                         (Failure "Failed to record property view"))
               \/ exists n,
                    (exec cnt s1).2
                    = Fulfilled {| count := n; count_error := None |}
                    /\ r = json (ViewCount n))).
Proof.
  unfold recordView. destruct (negb _) eqn:Hn; [simpl; by left|].
  apply negb_false_iff in Hn.
  destruct (trimmed_id_clean req Hn) as (raw & Hraw & -> & Hclean).
  set (ins := InsertPropertyViews Admin [view_row now req (trim raw)]).
  set (cnt := CountPropertyViews Anon "property_id" (JStr (trim raw))).
  cbn [run].
  destruct (exec ins s) as [s1 a] eqn:Hi.
  destruct a as [r|e]; [cbn in r; destruct r as [[e|]]|]; cbn [run fst snd].
  - right. exists raw. split; [done|]. split; [done|]. left.
    fold ins. rewrite Hi. repeat split; simpl; congruence.
  - destruct (exec cnt s1) as [s2 a] eqn:Hc.
    destruct a as [r|e]; [cbn in r; destruct r as [n [e|]]|];
      cbn [run fst snd app];
      right; exists raw; (split; [done|]); (split; [done|]); right;
      fold ins; fold cnt; rewrite Hi; cbn [fst snd]; rewrite Hc;
      (split; [done|]); (split; [done|]); (split; [done|]).
    + left. split; [simpl; congruence|done].
    + right. eauto.
    + left. split; done.
  - right. exists raw. split; [done|]. split; [done|]. left.
    fold ins. rewrite Hi. repeat split; auto.
Qed.

(** X2.  Whatever the store answers, every call recordView issues names the
    trimmed [:id], a string that is not empty and has no white space at
    either end: the row it inserts has it under [property_id], next to the
    instant of the call under [viewed_date] and a key [user_id], and the
    count filters [property_id] on it. *)
Theorem recordView_sends_clean_id s now req c :
  c ∈ (run exec s (recordView now req)).2 ->
  exists raw, params_id req = Some raw /\ clean (trim raw)
    /\ ((exists o, c = InsertPropertyViews Admin [o]
           /\ o !! "property_id"%string = Some (JStr (trim raw))
           /\ o !! "viewed_date"%string = Some (JIso now)
           /\ dom o = ({[ "property_id"; "viewed_date"; "user_id" ]}%string
                       : gset string))
        \/ c = CountPropertyViews Anon "property_id" (JStr (trim raw))).
Proof.
  unfold recordView. destruct (negb _) eqn:Hn; simpl;
    [by intros ?%elem_of_nil|].
  apply negb_false_iff in Hn.
  destruct (trimmed_id_clean req Hn) as (raw & Hraw & -> & Hclean).
  intros Hc. exists raw. split; [done|]. split; [done|].
  assert (exists o, InsertPropertyViews Admin [view_row now req (trim raw)]
                    = InsertPropertyViews Admin [o]
           /\ o !! "property_id"%string = Some (JStr (trim raw))
           /\ o !! "viewed_date"%string = Some (JIso now)
           /\ dom o = ({[ "property_id"; "viewed_date"; "user_id" ]}%string
                       : gset string)) as Hrow.
  { eexists. split; [reflexivity|].
    split; [apply view_row_property_id|].
    split; [apply view_row_viewed_date|].
    unfold view_row. rewrite !dom_insert_L, dom_singleton_L. set_solver. }
  revert Hc.
  insert_cases exec s s1.
  - intros [->|[]%elem_of_nil]%elem_of_cons. by left.
  - count_cases exec s1 s2;
      intros [->|[->|[]%elem_of_nil]%elem_of_cons]%elem_of_cons; auto.
  - intros [->|[]%elem_of_nil]%elem_of_cons. by left.
Qed.

(** X3.  Whatever the store answers, getViewCount issues no insert: it ends
    with no call and the 400 response, or with one count filtered on the
    clean trimmed id; the response is then success with exactly the count
    the store answered, or 500 when the count was rejected or came with an
    error.  The store is left as that one call leaves it. *)
Theorem getViewCount_protocol s req :
  let '(s', r, tr) := run exec s (getViewCount req) in
  (tr = [] /\ s' = s
   /\ r = status_json 400 (Failure "Invalid property ID"))
  \/ (exists raw, params_id req = Some raw /\ clean (trim raw) /\
        let cnt := CountPropertyViews Anon "property_id" (JStr (trim raw)) in
        tr = [cnt] /\ s' = (exec cnt s).1
        /\ ((count_failed (exec cnt s).2
             /\ r = status_json 500
                      (Failure "Failed to fetch property view count"))
            \/ exists n,
                 (exec cnt s).2
                 = Fulfilled {| count := n; count_error := None |}
                 /\ r = json (ViewCount n))).
Proof.
  unfold getViewCount. destruct (negb _) eqn:Hn; [simpl; by left|].
  apply negb_false_iff in Hn.
  destruct (trimmed_id_clean req Hn) as (raw & Hraw & -> & Hclean).
  set (cnt := CountPropertyViews Anon "property_id" (JStr (trim raw))).
  cbn [run].
  destruct (exec cnt s) as [s2 a] eqn:Hc.
  destruct a as [r|e]; [cbn in r; destruct r as [n [e|]]|];
    cbn [run fst snd app];
    right; exists raw; (split; [done|]); (split; [done|]);
    fold cnt; rewrite Hc;
    (split; [done|]); (split; [done|]).
  - left. split; [simpl; congruence|done].
  - right. eauto.
  - left. split; done.
Qed.
End AnyStore.

(** ** Inserts and counts on the table *)

Section TableFacts.
Implicit Types (db : Db) (o : JsObject) (r : PropertyView) (P Q a : jsstring).

Lemma bind_pg_inr {A B} (m : PgError + A) (f : A -> PgError + B) (b : B) :
  bind_pg m f = inr b -> exists x, m = inr x /\ f x = inr b.
Proof. destruct m as [e|x]; [discriminate|]. simpl. eauto. Qed.

Lemma text_cell_Some col (v : option Js.value) (s : jsstring) :
  text_cell col v = inr (Some s) -> v = Some (JStr s).
Proof. destruct v as [[| | |]|]; simpl; congruence. Qed.

Lemma uuid_cell_Some col (v : option Js.value) (s : jsstring) :
  uuid_cell col v = inr (Some s) -> v = Some (JStr s) /\ is_uuid s = true.
Proof.
  unfold uuid_cell. destruct (text_cell col v) as [e|[s'|]] eqn:Hc;
    [discriminate| |discriminate].
  destruct (is_uuid s') eqn:Hu; [|discriminate].
  intros [= <-]. split; [exact (text_cell_Some _ _ _ Hc)|exact Hu].
Qed.

Lemma time_cell_Some col (v : option Js.value) (t : Z) :
  time_cell col v = inr (Some t) -> v = Some (JIso t).
Proof. destruct v as [[| | |]|]; simpl; congruence. Qed.

Lemma not_null_inr {A} col (c : option A) (x : A) :
  not_null col c = inr x -> c = Some x.
Proof. destruct c; simpl; congruence. Qed.

Lemma references_inr fkey (s : jsstring) (referenced : list jsstring) u :
  references fkey (Some s) referenced = inr u -> s ∈ referenced.
Proof. unfold references. by case_bool_decide. Qed.

(** What an accepted row object was, and what it became. *)
Lemma insert_row_inv db o db' :
  insert_row db o = inr db' ->
  exists r,
    db' = stored db r
    /\ o !! "property_id"%string = Some (JStr (property_id r))
    /\ o !! "ip_address"%string = Some (JStr (ip_address r))
    /\ (exists t, o !! "viewed_date"%string = Some (JIso t)
                  /\ viewed_date r = date_of t)
    /\ (pv_id r = GenId (next_id db) \/ exists s, pv_id r = GivenId s)
    /\ (pv_id r ∉ pv_id <$> property_views db)
    /\ (triple r ∉ triple <$> property_views db)
    /\ is_uuid (property_id r) = true
    /\ property_id r ∈ db_properties db.
Proof.
  unfold insert_row. case_bool_decide; [|discriminate].
  intros (id_c & Hid & (pid_c & Hpid & (prof_c & Hprof & (at_c & Hat &
          (ip_c & Hip & (day_c & Hday & (rid & Hrid & (pid & Hpid' &
          (vat & Hvat & (ip & Hip' & (day & Hday' & Hrow
          )%bind_pg_inr)%bind_pg_inr)%bind_pg_inr)%bind_pg_inr
          )%bind_pg_inr)%bind_pg_inr)%bind_pg_inr)%bind_pg_inr
          )%bind_pg_inr)%bind_pg_inr)%bind_pg_inr.
  cbv zeta in Hrow.
  case_bool_decide as Hkey; [discriminate|].
  case_bool_decide as Htriple; [discriminate|].
  apply bind_pg_inr in Hrow as (u1 & Hfk1 & Hrow).
  apply bind_pg_inr in Hrow as (u2 & Hfk2 & Hrow).
  injection Hrow as <-.
  apply not_null_inr in Hpid', Hip', Hday', Hrid. subst pid_c ip_c.
  apply uuid_cell_Some in Hpid as [Hpid Huuid].
  apply text_cell_Some in Hip.
  destruct day_c as [t|]; [|discriminate]. injection Hday' as <-.
  apply time_cell_Some in Hday.
  eexists. split; [reflexivity|].
  cbn [property_id ip_address viewed_date pv_id].
  split; [exact Hpid|]. split; [exact Hip|].
  split; [by exists t|]. split.
  { destruct (o !! "id"%string); simpl in Hrid.
    - destruct id_c; [|discriminate]. injection Hrid as <-. eauto.
    - injection Hrid as <-. by left. }
  split; [exact Hkey|]. split; [exact Htriple|].
  split; [exact Huuid|]. exact (references_inr _ _ _ _ Hfk1).
Qed.

Lemma count_rows_snoc db db' r P :
  property_views db' = property_views db ++ [r] ->
  count_rows P db'
  = (count_rows P db + if bool_decide (property_id r = P) then 1 else 0)%N.
Proof.
  unfold count_rows. intros ->. rewrite List.filter_app, length_app. simpl.
  case_bool_decide; simpl; lia.
Qed.

(** X4.  An accepted row raises the count of its own property by exactly
    one and leaves the count of every other property as it was. *)
Theorem insert_adds_one_view db o db' :
  insert_row db o = inr db' ->
  exists P, o !! "property_id"%string = Some (JStr P)
    /\ count_rows P db' = (count_rows P db + 1)%N
    /\ forall Q, Q <> P -> count_rows Q db' = count_rows Q db.
Proof.
  intros (r & -> & HP & _)%insert_row_inv. exists (property_id r).
  split; [done|]. split.
  - rewrite (count_rows_snoc db _ r) by done.
    by rewrite bool_decide_eq_true_2.
  - intros Q HQ. rewrite (count_rows_snoc db _ r) by done.
    rewrite bool_decide_eq_false_2 by done. lia.
Qed.








End TableFacts.



Lemma one_view_reachable :
  reachable (db0, [insert_full])
    ((pg_insert db0 [full_row]).1,
     [Ret (json (ViewCount None))]).
Proof.
  unfold reachable.
  eapply rtc_l; [apply (step_call _ _ 0%nat); reflexivity|].
  apply rtc_refl.
Qed.



Lemma insert_rows_grows rows : forall db db',
  insert_rows db rows = inr db' ->
  property_views db `prefix_of` property_views db'.
Proof.
  induction rows as [|o rows IH]; cbn [insert_rows]; intros db db'.
  - intros [= <-]. reflexivity.
  - destruct (insert_row db o) as [e|db1] eqn:Ho; cbn [bind_pg];
      [discriminate|].
    intros Hrest%IH. etrans; [|exact Hrest].
    destruct (insert_row_inv _ _ _ Ho) as (r & -> & _).
    cbn [property_views]. apply prefix_app_r. reflexivity.
Qed.

Lemma step_grows (s s' : System) :
  step s s' -> property_views s.1 `prefix_of` property_views s'.1.
Proof.
  destruct 1 as [db ts i c k _| | |]; cbn [fst property_views];
    try reflexivity.
  destruct c as [[|] rows|cl col v]; cbn [pg_exec fst];
    [reflexivity| |reflexivity].
  unfold pg_insert. destruct (insert_rows db rows) as [e|db'] eqn:Hr;
    cbn [fst]; [reflexivity|].
  exact (insert_rows_grows rows db db' Hr).
Qed.

Lemma count_rows_prefix (db db' : Db) (P : jsstring) :
  property_views db `prefix_of` property_views db' ->
  (count_rows P db <= count_rows P db')%N.
Proof.
  intros [extra Hx]. unfold count_rows. rewrite Hx, List.filter_app, length_app.
  lia.
Qed.

(** X6.  Along every execution -- any requests, any interleaving -- stored
    rows are neither removed nor changed: the table at a later state
    extends the earlier one at its end, and so the count of every property
    can only grow. *)
Theorem view_count_never_decreases (s s' : System) (P : jsstring) :
  reachable s s' ->
  property_views s.1 `prefix_of` property_views s'.1
  /\ (count_rows P s.1 <= count_rows P s'.1)%N.
Proof.
  intros Hreach.
  assert (property_views s.1 `prefix_of` property_views s'.1) as Hp.
  { induction Hreach as [|s1 s2 s3 Hstep _ IH]; [reflexivity|].
    etrans; [exact (step_grows _ _ Hstep)|exact IH]. }
  split; [exact Hp|]. exact (count_rows_prefix _ _ P Hp).
Qed.

Lemma view_count_never_decreases_witness :
  (count_rows prop1 db0
   <= count_rows prop1 (pg_insert db0 [full_row]).1)%N.
Proof.
  apply (view_count_never_decreases
           (db0, [insert_full])
           ((pg_insert db0 [full_row]).1,
            [Ret (json (ViewCount None))]) prop1).
  exact one_view_reachable.
Defined.

Lemma insert_adds_one_view_witness :
  exists P, full_row !! "property_id"%string = Some (JStr P)
    /\ count_rows P Cases.db_one = (count_rows P db0 + 1)%N
    /\ forall Q, Q <> P -> count_rows Q Cases.db_one = count_rows Q db0.
Proof.
  apply (insert_adds_one_view db0 full_row Cases.db_one).
  vm_compute. reflexivity.
Defined.

(** ** The unique index under concurrent requests, and the anon client *)

(** X20.  From a table in which no two rows share (property_id,
    ip_address, viewed_date), every state the system can reach -- whatever
    requests are in flight or arrive, however their calls to the store
    interleave, fail or are delayed -- has at most one row for any such
    triple.  The bound comes from the unique index of the table alone: the
    handlers take no lock. *)
Theorem unique_view_per_triple
    (ts : list (Prog views_answer Response)) (start : Db) (s : System)
    (P ip : jsstring) (day : Z) :
  unique_triples start ->
  reachable (start, ts) s ->
  (length (rows_with P ip day s.1) <= 1)%nat.
Proof.
  intros Hstart Hreach. apply unique_rows_with.
  exact (reachable_unique _ _ Hreach Hstart).
Qed.

Lemma unique_view_per_triple_witness :
  exists s : System,
    reachable (db0, [insert_full; insert_full; recordView t0 req1]) s
    /\ quiescent s
    /\ length (rows_with prop1 ip1 day0 s.1) = 1%nat
    /\ (length (rows_with prop1 ip1 day0 s.1) <= 1)%nat.
Proof.
  eexists. split; [|split; [|split]].
  - unfold reachable.
    eapply rtc_l; [apply (step_call _ _ 0%nat); reflexivity|].
    eapply rtc_l; [apply (step_call _ _ 1%nat); reflexivity|].
    eapply rtc_l; [apply (step_call _ _ 2%nat); reflexivity|].
    apply rtc_refl.
  - repeat constructor; eexists; vm_compute; reflexivity.
  - vm_compute. reflexivity.
  - eapply (unique_view_per_triple
              [insert_full; insert_full; recordView t0 req1] db0).
    + apply NoDup_nil_2.
    + unfold reachable.
      eapply rtc_l; [apply (step_call _ _ 0%nat); reflexivity|].
      eapply rtc_l; [apply (step_call _ _ 1%nat); reflexivity|].
      eapply rtc_l; [apply (step_call _ _ 2%nat); reflexivity|].
      apply rtc_refl.
Defined.



(** ** The SQL helpers *)

Section SqlFacts.
Import Sql.
Implicit Types (db : Db) (properties : list Property) (u : jsstring).

Lemma sum_list_with_add {A} (g h : A -> nat) (l : list A) :
  sum_list_with (fun x => (g x + h x)%nat) l
  = (sum_list_with g l + sum_list_with h l)%nat.
Proof. induction l as [|x l IH]; simpl; [done|]. rewrite IH. lia. Qed.

Lemma sum_list_with_indicator {A} (test : A -> bool) (l : list A) :
  sum_list_with (fun x => if test x then 1%nat else 0%nat) l
  = length (List.filter test l).
Proof.
  induction l as [|x l IH]; simpl; [done|].
  rewrite IH. by destruct (test x).
Qed.

Lemma sum_list_with_pointwise {A} (g h : A -> nat) (l : list A) :
  (forall x, g x = h x) -> sum_list_with g l = sum_list_with h l.
Proof. intros E. induction l as [|x l IH]; simpl; [done|]. by rewrite E, IH. Qed.

Lemma sum_list_with_zero {A} (l : list A) :
  sum_list_with (fun _ => 0%nat) l = 0%nat.
Proof. induction l as [|x l IH]; simpl; auto. Qed.

(** The pairs the join makes for one view, kept by the WHERE clause. *)
Lemma joined_one_view (pv : PropertyView) properties u :
  length (List.filter (fun '(_, p) => bool_decide (prop_owner p = u))
            (p ← List.filter
                   (fun p => bool_decide (prop_id p = property_id pv))
                   properties; [(pv, p)]))
  = length (List.filter
              (fun p => bool_decide (property_id pv = prop_id p))
              (List.filter (fun p => bool_decide (prop_owner p = u))
                           properties)).
Proof.
  induction properties as [|p ps IH]; [reflexivity|].
  cbn [List.filter].
  destruct (decide (prop_owner p = u)) as [Ho|Ho];
  destruct (decide (prop_id p = property_id pv)) as [Hi|Hi].
  - rewrite (bool_decide_eq_true_2 _ Hi), (bool_decide_eq_true_2 _ Ho).
    rewrite bind_cons. cbn [app List.filter].
    rewrite (bool_decide_eq_true_2 _ Ho).
    rewrite (bool_decide_eq_true_2 (property_id pv = prop_id p))
      by (symmetry; exact Hi).
    cbn [length]. by rewrite IH.
  - rewrite (bool_decide_eq_false_2 _ Hi), (bool_decide_eq_true_2 _ Ho).
    cbn [List.filter].
    rewrite (bool_decide_eq_false_2 (property_id pv = prop_id p))
      by (intros Heq; apply Hi; symmetry; exact Heq).
    exact IH.
  - rewrite (bool_decide_eq_true_2 _ Hi), (bool_decide_eq_false_2 _ Ho).
    rewrite bind_cons. cbn [app List.filter].
    rewrite (bool_decide_eq_false_2 _ Ho). exact IH.
  - rewrite (bool_decide_eq_false_2 _ Hi), (bool_decide_eq_false_2 _ Ho).
    exact IH.
Qed.

Lemma joined_count db properties u :
  length (List.filter (fun '(_, p) => bool_decide (prop_owner p = u))
                      (joined db properties))
  = views_by_property db properties u.
Proof.
  unfold joined, views_by_property.
  induction (property_views db) as [|pv rows IH].
  - cbn [List.filter]. rewrite sum_list_with_zero. reflexivity.
  - rewrite bind_cons, List.filter_app, length_app, IH, joined_one_view.
    cbn [List.filter].
    rewrite <- sum_list_with_indicator, <- sum_list_with_add.
    apply sum_list_with_pointwise. intros p. cbn [List.filter].
    by destruct (bool_decide (property_id pv = prop_id p)).
Qed.

(** X7.  [get_user_total_views] of an owner is the sum, over the listings
    of that owner, of the rows of each in the table, and
    [get_property_views] of a listing is the number of its rows, both cast
    to [integer].  The functions are SECURITY DEFINER: they count every row
    of the table, whoever calls.  Both fail exactly when the number leaves
    the range of [integer]. *)
Theorem user_total_views_is_sum db properties u :
  get_user_total_views db properties u
  = to_integer
      (sum_list_with (fun p => N.to_nat (count_rows (prop_id p) db))
         (List.filter (fun p => bool_decide (prop_owner p = u)) properties))
  /\ (forall P, get_property_views db P
               = to_integer (N.to_nat (count_rows P db)))
  /\ (forall n, to_integer n = None <-> 2147483647 < Z.of_nat n).
Proof.
  split; [|split].
  - unfold get_user_total_views. rewrite joined_count.
    unfold views_by_property, count_rows. f_equal.
    apply sum_list_with_pointwise. intros p. by rewrite Nat2N.id.
  - intros P. unfold get_property_views, count_rows. by rewrite Nat2N.id.
  - intros n. unfold to_integer.
    destruct (Z.leb_spec (Z.of_nat n) 2147483647); split;
      first [discriminate | lia | reflexivity].
Qed.
End SqlFacts.

(** ** [authenticateToken] and [isAdmin] *)

Section AuthFacts.
Import App.
Variable identify identify_again : jsstring -> Response + User.
Implicit Types (req : Request) (h : jsstring).

(** X8.  Which token is checked.  Without an Authorization header (or with
    an empty one) and without a [token] query parameter the answer is 401
    "No token provided" and nothing is verified.  A header that yields a
    token decides alone: the query parameter is not looked at.  When the
    header yields none ("Bearer " followed by nothing or by a space), a
    query token is the one verified. *)
Theorem authenticateToken_token_choice req :
  (truthy (headers_authorization req) = false ->
   truthy (query_token_of req) = false ->
   run_authenticateToken identify req
   = inl (status_json 401 (AuthError "No token provided")))
  /\ (forall h, headers_authorization req = Some h ->
        header_token h <> [] ->
        run_authenticateToken identify req
        = match identify (header_token h) with
          | inl denied => inl denied
          | inr u =>
              inr {| params_id := params_id req;
                     headers_authorization := headers_authorization req;
                     query_token_of := query_token_of req;
                     ip := ip req; user := Some u |}
          end)
  /\ (forall q,
        (truthy (headers_authorization req) = false
         \/ exists h, headers_authorization req = Some h
                      /\ header_token h = []) ->
        query_token_of req = Some q -> q <> [] ->
        run_authenticateToken identify req
        = match identify q with
          | inl denied => inl denied
          | inr u =>
              inr {| params_id := params_id req;
                     headers_authorization := headers_authorization req;
                     query_token_of := query_token_of req;
                     ip := ip req; user := Some u |}
          end).
Proof.
  unfold run_authenticateToken. split; [|split].
  - destruct (headers_authorization req) as [[|c h]|];
      destruct (query_token_of req) as [[|c' q]|]; simpl;
      intros; first [reflexivity | discriminate].
  - intros h -> Hne. destruct h as [|c h]; [done|].
    destruct (header_token (c :: h)) as [|t tok] eqn:Ht; [done|].
    reflexivity.
  - intros q Hh -> Hq. destruct q as [|c' q]; [done|].
    destruct Hh as [Hh|(h & -> & Hh)].
    + destruct (headers_authorization req) as [[|c h]|]; simpl in *;
        first [reflexivity | discriminate].
    + destruct h as [|c h]; [reflexivity|]. by rewrite Hh.
Qed.

(** A pass of the middleware reads the header and the query token only:
    what an earlier pass put into [req.user] plays no part and is
    replaced. *)
Lemma run_authenticateToken_again req req' :
  run_authenticateToken identify req = inr req' ->
  run_authenticateToken identify_again req'
  = run_authenticateToken identify_again req.
Proof.
  unfold run_authenticateToken at 1.
  destruct (negb (truthy _)); [discriminate|].
  destruct (identify _) as [d|u]; [discriminate|].
  intros [= <-]. reflexivity.
Qed.

(** X9.  The second pass of the middleware (the dashboard router applies it
    again behind the mount) decides as if it were the first: on a request
    the first pass let through, it answers what it would have answered on
    the request as it came in.  It verifies the token and reads the profile
    anew, so it may turn away a request the first pass let through, and the
    [req.user] it sets replaces the first one. *)
Theorem authenticateToken_second_pass req req' :
  run_authenticateToken identify req = inr req' ->
  run_authenticateToken identify_again req'
  = run_authenticateToken identify_again req
  /\ (forall r, run_authenticateToken identify_again req = inl r ->
        run_authenticateToken identify_again req' = inl r)
  /\ (forall req2, run_authenticateToken identify_again req = inr req2 ->
        run_authenticateToken identify_again req' = inr req2).
Proof.
  intros Hpass. rewrite (run_authenticateToken_again req req' Hpass).
  repeat split; auto.
Qed.

(** X10.  The routers mounted for administrators are reached only with a
    [req.user] whose role is exactly "admin". *)
Theorem admin_routers_require_admin (path : string)
    (ms : list Middleware) (r : Router) (hr : HttpRequest) req' :
  r = usersRouter \/ r = agentsRouter ->
  (path, (ms, r)) ∈ mounts ->
  through identify ms (fresh hr) = inr req' ->
  exists u, user req' = Some u /\ role u = JStr (lit "admin").
Proof.
  intros Hr Hin.
  assert (ms = [authenticateToken; isAdmin]) as ->.
  { unfold mounts in Hin.
    repeat (apply elem_of_cons in Hin as [Heq|Hin];
            [injection Heq as -> -> ->;
             first [reflexivity | by destruct Hr]|]).
    by apply elem_of_nil in Hin. }
  cbn [through run_middleware].
  destruct (run_authenticateToken identify (fresh hr)) as [d|req1];
    [discriminate|].
  unfold run_isAdmin. destruct (user req1) as [u|] eqn:Hu; [|discriminate].
  case_bool_decide as Hrole; [|discriminate].
  intros [= <-]. exists u. split; [exact Hu|exact Hrole].
Qed.

(** X11.  Every mount other than /api/auth, /api/property-views and
    /api/notifications answers a request that brings no token with 401
    "No token provided" before its router is reached; those three have no
    middleware in front of them. *)
Theorem protected_mounts_reject_anonymous (path : string)
    (ms : list Middleware) (r : Router) (hr : HttpRequest) :
  (path, (ms, r)) ∈ mounts ->
  authorization hr = None -> query_token hr = None ->
  (r = authRouter \/ r = propertyViewsRouter \/ r = notificationsRouter ->
   through identify ms (fresh hr) = inr (fresh hr))
  /\ (r <> authRouter -> r <> propertyViewsRouter ->
      r <> notificationsRouter ->
      through identify ms (fresh hr)
      = inl (status_json 401 (AuthError "No token provided"))).
Proof.
  intros Hin Hh Hq.
  assert (run_authenticateToken identify (fresh hr)
          = inl (status_json 401 (AuthError "No token provided"))) as Hno.
  { unfold run_authenticateToken, fresh. simpl. by rewrite Hh, Hq. }
  unfold mounts in Hin.
  repeat (apply elem_of_cons in Hin as [Heq|Hin];
          [injection Heq as -> -> ->; cbn [through run_middleware];
           split;
           [intros [?|[?|?]]; first [reflexivity | discriminate]
           |intros ? ? ?; first [congruence | by rewrite Hno]]|]).
  by apply elem_of_nil in Hin.
Qed.
End AuthFacts.

Section IdentifyFacts.
Import App Auth.
Variable verify : jsstring -> Verified.
Variable find_profile : jsstring -> Settled Single.
Implicit Types (req : Request).

Lemma identify_inl token (r : Response) :
  identify verify find_profile token = inl r -> status r = 401.
Proof.
  unfold identify. destruct (identify_steps _ _ _); [|discriminate].
  by intros [= <-].
Qed.

Lemma identify_inr token (u : User) :
  identify verify find_profile token = inr u ->
  exists decoded row,
    verify token = Payload (Some decoded)
    /\ or_else (claim_userId decoded) (claim_sub decoded) = Some (userId u)
    /\ userId u <> []
    /\ find_profile (userId u)
       = Fulfilled {| single_data := Some row; single_error := None |}
    /\ u = {| userId := userId u; email := column row "email";
              role := column row "role"; profile := row |}.
Proof.
  unfold identify, identify_steps.
  destruct (verify token) as [[decoded|]|name msg]; [| discriminate |].
  - destruct (or_else _ _) as [[|c uid]|] eqn:Hid; simpl; try discriminate.
    destruct (find_profile (c :: uid)) as [[[row|] [e|]]|e] eqn:Hf;
      try discriminate.
    intros [= <-]. exists decoded, row. simpl. repeat split; try done.
  - case_bool_decide; discriminate.
Qed.

(** X12.  Every request [authenticateToken] turns away gets status 401,
    whatever fails: no token, a token that does not verify or has expired,
    a payload without user id, a profile that is missing or cannot be
    read. *)
Theorem authenticateToken_rejects_with_401 req (r : Response) :
  run_authenticateToken (identify verify find_profile) req = inl r ->
  status r = 401.
Proof.
  unfold run_authenticateToken.
  destruct (negb (truthy _)); [by intros [= <-]|].
  destruct (identify _ _ _) as [d|u] eqn:Hi; [|discriminate].
  intros [= <-]. exact (identify_inl _ _ Hi).
Qed.

(** X13.  A request [authenticateToken] lets through carries a [req.user]
    built from the store: its id is [userId || sub] of the verified
    payload, and its role and email are those of the profile row found for
    that id -- nothing else of the token is used. *)
Theorem authenticated_user_is_profile req req' :
  run_authenticateToken (identify verify find_profile) req = inr req' ->
  exists token decoded row u,
    user req' = Some u
    /\ verify token = Payload (Some decoded)
    /\ or_else (claim_userId decoded) (claim_sub decoded) = Some (userId u)
    /\ userId u <> []
    /\ find_profile (userId u)
       = Fulfilled {| single_data := Some row; single_error := None |}
    /\ role u = column row "role"
    /\ email u = column row "email"
    /\ profile u = row
    /\ params_id req' = params_id req /\ ip req' = ip req.
Proof.
  unfold run_authenticateToken.
  destruct (negb (truthy _)); [discriminate|].
  destruct (identify _ _ _) as [d|u] eqn:Hi; [discriminate|].
  intros [= <-].
  destruct (identify_inr _ _ Hi) as (decoded & row & Hv & Hid & Hne & Hf & Hu).
  eexists _, decoded, row, u. cbn [user params_id ip].
  split; [reflexivity|]. split; [exact Hv|]. split; [exact Hid|].
  split; [exact Hne|]. split; [exact Hf|].
  rewrite Hu. cbn [role email profile]. repeat split; reflexivity.
Qed.
End IdentifyFacts.

(** ** The statistics behind the middleware, and sequences of requests *)

Section StatsGate.
Import App Dashboard.
Variable identify identify_again : jsstring -> Response + User.
Variable exec : forall c : StatsCall, nat -> nat * Settled (stats_answer c).

(** X14.  GET /api/dashboard/stats is the handler behind two passes of
    [authenticateToken], that of the mount and that of the router.  A
    request either pass turns away gets that pass's response, runs no query
    and leaves the cache object alone, whatever the cache holds and
    whatever the store would answer; one that both let through is served by
    the handler, with the [req.user] the second pass set. *)
Theorem stats_behind_authentication
    (c : StatsCache) (n : nat) (now : Z) (h : HttpRequest) :
  (forall r, run_authenticateToken identify (fresh h) = inl r ->
     run exec n (get_dashboard_stats identify identify_again c now h)
     = (n, (c, r), []))
  /\ (forall req r,
        run_authenticateToken identify (fresh h) = inr req ->
        run_authenticateToken identify_again (fresh h) = inl r ->
        run exec n (get_dashboard_stats identify identify_again c now h)
        = (n, (c, r), []))
  /\ (forall req req2,
        run_authenticateToken identify (fresh h) = inr req ->
        run_authenticateToken identify_again (fresh h) = inr req2 ->
        (exists u, user req2 = Some u
                   /\ exists token, identify_again token = inr u)
        /\ get_dashboard_stats identify identify_again c now h
           = getStats c now req2).
Proof.
  unfold get_dashboard_stats.
  change (mounted "/api/dashboard")
    with (Some ([authenticateToken], dashboardRouter)).
  cbn [through run_middleware]. split; [|split].
  - intros r ->. reflexivity.
  - intros req r Hreq Hagain. rewrite Hreq.
    rewrite (run_authenticateToken_again identify identify_again _ _ Hreq).
    rewrite Hagain. reflexivity.
  - intros req req2 Hreq Hagain. rewrite Hreq.
    rewrite (run_authenticateToken_again identify identify_again _ _ Hreq).
    rewrite Hagain. split; [|reflexivity].
    revert Hagain. unfold run_authenticateToken.
    destruct (negb _); [discriminate|].
    destruct (identify_again _) as [d|u] eqn:Hu; [discriminate|].
    intros [= <-]. exists u. split; [reflexivity|]. eauto.
Qed.
End StatsGate.

Section ServeAll.
Import Dashboard.
Variable outcomes : nat -> Settled Counts.
Implicit Types (c : StatsCache) (n : nat) (requests : list (Z * Request)).

(** X15.  While the cache holds a payload, any number of requests whose
    [now] is less than [cacheDuration] past its timestamp are all answered
    with that payload; none runs the queries and the cache object stays as
    it is. *)
Theorem serve_all_within_window c n requests (d : Stats) :
  data c = Some d ->
  Forall (fun nr => nr.1 - timestamp c < cacheDuration c) requests ->
  serve_all outcomes (c, n) requests
  = ((c, n), (fun _ => json (stats_body d)) <$> requests).
Proof.
  intros Hd. induction 1 as [|[now req] rest Hnow _ IH]; [reflexivity|].
  cbn [serve_all]. rewrite (serve_hit outcomes c n now req d Hd Hnow).
  rewrite IH. reflexivity.
Qed.
End ServeAll.

Section ServeAllIn.
Import Dashboard.
Variable w : World.
Implicit Types (c : StatsCache) (n : nat) (requests : list (Z * Request)).

Lemma serve_in_cases c n now req :
  let '((c', n'), r) := serve_in w (c, n) now req in
  cacheDuration c' = cacheDuration c
  /\ (n <= n' <= S n)%nat
  /\ (status r = 200 \/ status r = 408 \/ status r = 500)
  /\ (status r = 408 -> slow w n = true /\ n' = S n)
  /\ (data c <> None -> data c' <> None).
Proof.
  destruct (fresh_payload c now) as [d|] eqn:Hf.
  - rewrite (serve_in_hit w c n now req d Hf).
    repeat split; auto; try lia; discriminate.
  - rewrite (serve_in_miss w c n now req Hf).
    destruct (batch w n) as [qs|e];
      destruct (slow w n); cbn [first_sent];
      repeat split; auto; try lia; try discriminate.
Qed.

(** X16.  Whatever the requests and whatever the store does and however
    long it takes, the handler never changes [cacheDuration], answers every
    request with 200, 408 or 500, runs the queries at most once per
    request, and never empties a cache that holds a payload. *)
Theorem serve_all_invariants requests : forall c n,
  let '((c', n'), rs) := serve_all_in w (c, n) requests in
  cacheDuration c' = cacheDuration c
  /\ length rs = length requests
  /\ (n <= n' <= n + length requests)%nat
  /\ Forall (fun r => status r = 200 \/ status r = 408 \/ status r = 500) rs
  /\ (data c <> None -> data c' <> None).
Proof.
  induction requests as [|[now req] rest IH]; intros c n.
  - cbn [serve_all_in length]. repeat split; auto; lia.
  - cbn [serve_all_in]. pose proof (serve_in_cases c n now req) as H1.
    destruct (serve_in w (c, n) now req) as [[c1 n1] r].
    specialize (IH c1 n1).
    destruct (serve_all_in w (c1, n1) rest) as [[c2 n2] rs].
    destruct H1 as (Hd1 & Hn1 & Hs1 & _ & Hk1).
    destruct IH as (Hd2 & Hl2 & Hn2 & Hs2 & Hk2).
    cbn [length]. repeat split; auto; try lia; congruence.
Qed.

(** X22.  A request whose batch settles before the timer is served in a
    world exactly as by the scripted store whose [k]-th batch is
    [Promise.all] of the four queries of the source sent to that world:
    verified properties, active profiles, pending property inquiries and
    pending contact submissions, in this order. *)
Theorem serve_in_time c n now req :
  slow w n = false ->
  serve_in w (c, n) now req
  = serve (fun k =>
             all4 (tables w k {| from := "properties"; select := "id";
                                 eq_column := "verified";
                                 eq_value := JBool true |})
                  (tables w k {| from := "profiles"; select := "profiles_id";
                                 eq_column := "status";
                                 eq_value := JStr (lit "active") |})
                  (tables w k {| from := "property_inquiries";
                                 select := "id"; eq_column := "status";
                                 eq_value := JStr (lit "pending") |})
                  (tables w k {| from := "contact_submissions";
                                 select := "id"; eq_column := "status";
                                 eq_value := JStr (lit "pending") |}))
          (c, n) now req.
Proof.
  intros Hslow. destruct (fresh_payload c now) as [d|] eqn:Hf.
  - rewrite (serve_in_hit w c n now req d Hf).
    unfold serve, getStats. cbn [fst snd]. by rewrite Hf.
  - rewrite (serve_in_miss w c n now req Hf), Hslow.
    rewrite batch_dashboard_queries.
    unfold serve, getStats. cbn [fst snd]. rewrite Hf. cbn [run scripted].
    change (scripted ?o dashboard_queries n) with (S n, o n).
    cbn beta.
    match goal with
    | |- context [all4 ?a ?b ?c0 ?d] => destruct (all4 a b c0 d)
    end; reflexivity.
Qed.
End ServeAllIn.

(** ** GET /api/dashboard/recent-inquiries *)

Section InquiriesFacts.
Import RecentInquiries.
Implicit Types (data : list Inquiry) (a : Settled Selected).

Lemma format_keeps (i : Inquiry) (f : Formatted) :
  format i = Some f ->
  out_id f = inquiry_id i /\ out_date f = created_at i
  /\ out_status f = inquiry_status i.
Proof.
  unfold format. destruct (profiles i); [|discriminate].
  by intros [= <-].
Qed.

(** X17.  The list is all or nothing.  If every row the store returns has
    its profile, the answer lists one entry per row, in the order of the
    rows, with the row's id, date and status; if a single row comes without
    profile, or the store reports an error or returns no data, the whole
    request is answered with the failure.  The handler asks for five rows
    at most and issues that one query only. *)
Theorem recentInquiries_all_or_nothing (since : Z) a :
  exists reply,
    run (answering a) tt (recentInquiries since)
    = (tt, reply, [SelectRecentInquiries since 5])
    /\ (forall data,
          a = Fulfilled {| selected_data := Some data;
                           selected_error := None |} ->
          Forall (fun i => profiles i <> None) data ->
          exists items, reply = Listed items
            /\ out_id <$> items = inquiry_id <$> data
            /\ out_date <$> items = created_at <$> data
            /\ out_status <$> items = inquiry_status <$> data)
    /\ (forall data,
          a = Fulfilled {| selected_data := Some data;
                           selected_error := None |} ->
          Exists (fun i => profiles i = None) data ->
          reply = FetchFailed)
    /\ ((forall data, a <> Fulfilled {| selected_data := Some data;
                                        selected_error := None |}) ->
        reply = FetchFailed).
Proof.
  unfold recentInquiries. cbn [run answering].
  destruct a as [[[data|] [e|]]|e]; cbn [run];
    try (eexists; split; [reflexivity|];
         split; [intros ? [=]|]; split; [intros ? [=]|]; reflexivity).
  destruct (mapM format data) as [items|] eqn:Hm; cbn [run];
    eexists; (split; [reflexivity|]); (split; [|split]).
  - intros ? [= <-] _. exists items. split; [reflexivity|].
    apply mapM_Some in Hm. clear -Hm.
    induction Hm as [|i f data items Hf _ IH]; [done|].
    destruct (format_keeps i f Hf) as (E1 & E2 & E3).
    destruct IH as (I1 & I2 & I3).
    rewrite !fmap_cons, E1, E2, E3, I1, I2, I3. done.
  - intros ? [= <-] Hex. exfalso.
    apply mapM_Some in Hm. clear -Hm Hex.
    induction Hm as [|i f data items Hf _ IH]; [by inversion Hex|].
    inversion Hex as [? ? Hnone|? ? Hrest]; subst; [|auto].
    unfold format in Hf. by rewrite Hnone in Hf.
  - intros Hno. by destruct (Hno data).
  - intros ? [= <-] Hall. exfalso.
    apply mapM_None in Hm. clear -Hm Hall.
    induction Hm as [i data Hnone|i data _ IH].
    + inversion Hall as [|? ? Hi _]; subst. unfold format in Hnone.
      destruct (profiles i); [discriminate|done].
    + inversion Hall; subst; auto.
  - reflexivity.
  - reflexivity.
Qed.
End InquiriesFacts.

(** ** [allowedOrigins] *)

Section OriginsFacts.
Implicit Types (s : jsstring) (sep c : N).

Lemma split_on_nonempty sep s : split_on sep s <> [].
Proof.
  destruct s as [|c s]; cbn [split_on]; [done|].
  destruct (c =? sep)%N; [done|]. by destruct (split_on sep s).
Qed.

Lemma split_on_length sep s :
  length (split_on sep s)
  = S (length (List.filter (fun c => (c =? sep)%N) s)).
Proof.
  induction s as [|c s IH]; cbn [split_on List.filter]; [done|].
  destruct (c =? sep)%N; cbn [length]; [by rewrite IH|].
  pose proof (split_on_nonempty sep s).
  destruct (split_on sep s); [done|]. exact IH.
Qed.

Lemma split_on_no_sep sep s :
  Forall (fun piece => sep ∉ piece) (split_on sep s).
Proof.
  induction s as [|c s IH]; cbn [split_on].
  - repeat constructor. by intros ?%elem_of_nil.
  - destruct (c =? sep)%N eqn:Hc.
    + constructor; [by intros ?%elem_of_nil|done].
    + destruct (split_on sep s) as [|piece pieces].
      * repeat constructor.
        intros [->|[]%elem_of_nil]%elem_of_cons.
        by rewrite N.eqb_refl in Hc.
      * inversion IH as [|? ? Hp Hps]; subst. constructor; [|done].
        intros [->|?]%elem_of_cons; [by rewrite N.eqb_refl in Hc|done].
Qed.

Lemma trim_start_elem s c : c ∈ trim_start s -> c ∈ s.
Proof.
  induction s as [|x s IH]; cbn [trim_start]; [done|].
  destruct (is_white_space x); [|done]. intros ?%IH. by right.
Qed.

Lemma trim_elem s c : c ∈ trim s -> c ∈ s.
Proof.
  unfold trim, trim_end. rewrite list_elem_of_In, <- in_rev, <- list_elem_of_In.
  intros Hc%trim_start_elem. rewrite list_elem_of_In, <- in_rev in Hc.
  apply trim_start_elem. by rewrite list_elem_of_In.
Qed.

(** X18.  The list of allowed origins is never empty.  With the variable
    unset or empty it is the two localhost origins; otherwise it has one
    entry per comma-separated piece -- one more than there are commas -- and
    each entry is free of commas and of white space at its ends (an entry
    can be empty, as after a trailing comma). *)
Theorem allowedOrigins_shape (env : option jsstring) :
  allowedOrigins env <> []
  /\ (truthy env = false -> allowedOrigins env = default_origins)
  /\ (forall s, env = Some s -> s <> [] ->
        length (allowedOrigins env)
        = S (length (List.filter (fun c => (c =? 44)%N) s))
        /\ Forall (fun o => (o = [] \/ clean o) /\ 44%N ∉ o)
                  (allowedOrigins env)).
Proof.
  unfold allowedOrigins. split; [|split].
  - destruct (truthy env); [|done].
    pose proof (split_on_nonempty 44 (default [] env)).
    by destruct (split_on 44 (default [] env)).
  - by intros ->.
  - intros s -> Hs. destruct s as [|c s]; [done|]. cbn [truthy default].
    split; [by rewrite length_fmap, split_on_length|].
    apply Forall_fmap. eapply Forall_impl; [apply split_on_no_sep|].
    intros piece Hp. cbn. split; [apply trim_clean|].
    intros Hin%trim_elem. done.
Qed.
End OriginsFacts.

(** ** The further properties at work *)

Section Witnesses.
Import App Auth RecentInquiries Cases.

Lemma recordView_sends_clean_id_witness :
  exists raw, params_id req1 = Some raw /\ clean (trim raw)
    /\ ((exists o, InsertPropertyViews Admin [view_row t0 req1 prop1]
                   = InsertPropertyViews Admin [o]
           /\ o !! "property_id"%string = Some (JStr (trim raw))
           /\ o !! "viewed_date"%string = Some (JIso t0)
           /\ dom o = ({[ "property_id"; "viewed_date"; "user_id" ]}%string
                       : gset string))
        \/ InsertPropertyViews Admin [view_row t0 req1 prop1]
           = CountPropertyViews Anon "property_id" (JStr (trim raw))).
Proof.
  apply (recordView_sends_clean_id pg_await db1 t0 req1).
  vm_compute. left.
Defined.

Lemma authenticateToken_token_choice_witness :
  run_authenticateToken (identify verify1 find_user) (fresh http_good)
  = inr (passed profile_user).
Proof.
  destruct (authenticateToken_token_choice (identify verify1 find_user)
              (fresh http_good)) as (_ & Hheader & _).
  rewrite (Hheader (lit "Bearer good") eq_refl).
  - vm_compute. reflexivity.
  - vm_compute. congruence.
Defined.

Lemma authenticateToken_second_pass_witness :
  run_authenticateToken (identify verify1 find_user) (fresh http_good)
  = inr (passed profile_user)
  /\ run_authenticateToken nobody (passed profile_user)
     = inl (status_json 401 (AuthError "Invalid token")).
Proof.
  assert (run_authenticateToken (identify verify1 find_user)
            (fresh http_good) = inr (passed profile_user)) as Hfirst
    by (vm_compute; reflexivity).
  split; [exact Hfirst|].
  destruct (authenticateToken_second_pass (identify verify1 find_user)
              nobody (fresh http_good) (passed profile_user) Hfirst)
    as (_ & Hdeny & _).
  apply Hdeny. vm_compute. reflexivity.
Defined.

Lemma admin_routers_require_admin_witness :
  exists u, user (passed profile_admin) = Some u
            /\ role u = JStr (lit "admin").
Proof.
  apply (admin_routers_require_admin (identify verify1 find_admin)
           "/api/users" [authenticateToken; isAdmin] usersRouter http_good
           (passed profile_admin)).
  - left. reflexivity.
  - unfold mounts. do 11 apply list_elem_of_further. apply list_elem_of_here.
  - vm_compute. reflexivity.
Defined.

Lemma protected_mounts_reject_anonymous_witness :
  through (identify verify1 find_admin) [authenticateToken]
          (fresh http_anonymous)
  = inl (status_json 401 (AuthError "No token provided")).
Proof.
  destruct (protected_mounts_reject_anonymous (identify verify1 find_admin)
              "/api/dashboard" [authenticateToken] dashboardRouter
              http_anonymous) as [_ Hprotected].
  - unfold mounts. do 2 apply list_elem_of_further. apply list_elem_of_here.
  - reflexivity.
  - reflexivity.
  - apply Hprotected; discriminate.
Defined.

Lemma authenticateToken_rejects_with_401_witness :
  status (status_json 401 (AuthError "Token expired")) = 401.
Proof.
  apply (authenticateToken_rejects_with_401 verify1 find_user
           (fresh http_expired)).
  vm_compute. reflexivity.
Defined.

Lemma authenticated_user_is_profile_witness :
  exists token decoded row u,
    user (passed profile_user) = Some u
    /\ verify1 token = Payload (Some decoded)
    /\ or_else (claim_userId decoded) (claim_sub decoded) = Some (userId u)
    /\ userId u <> []
    /\ find_user (userId u)
       = Fulfilled {| single_data := Some row; single_error := None |}
    /\ role u = column row "role"
    /\ email u = column row "email"
    /\ profile u = row
    /\ params_id (passed profile_user) = params_id (fresh http_good)
    /\ ip (passed profile_user) = ip (fresh http_good).
Proof.
  apply (authenticated_user_is_profile verify1 find_user (fresh http_good)
           (passed profile_user)).
  vm_compute. reflexivity.
Defined.

Lemma stats_behind_authentication_witness :
  run (Dashboard.world_exec world_degraded) 0%nat
      (get_dashboard_stats (identify verify1 find_user) nobody
         cache1 t0 http_good)
  = (0%nat, (cache1, status_json 401 (AuthError "Invalid token")), []).
Proof.
  destruct (stats_behind_authentication (identify verify1 find_user) nobody
              (Dashboard.world_exec world_degraded) cache1 0 t0 http_good)
    as (_ & Hsecond & _).
  apply (Hsecond (passed profile_user)); vm_compute; reflexivity.
Defined.

Lemma serve_all_within_window_witness :
  serve_all script (cache1, 1%nat)
    [(t0 + 1, req_admin); (t0 + 3999, req_admin)]
  = ((cache1, 1%nat), [json (StatsBody 12 7 5); json (StatsBody 12 7 5)]).
Proof.
  apply (serve_all_within_window script cache1 1
           [(t0 + 1, req_admin); (t0 + 3999, req_admin)]
           (Dashboard.stats_of counts_ok)).
  - reflexivity.
  - repeat constructor; vm_compute; reflexivity.
Defined.

Lemma serve_all_invariants_witness :
  let '((c', n'), rs) :=
    serve_all_in world_late (Dashboard.statsCache, 0%nat)
      [(t0, req_admin); (t0 + 5000, req_admin); (t0 + 6000, req_admin)] in
  Dashboard.cacheDuration c' = Dashboard.cacheDuration Dashboard.statsCache
  /\ length rs = 3%nat
  /\ (0 <= n' <= 0 + 3)%nat
  /\ Forall (fun r => status r = 200 \/ status r = 408 \/ status r = 500) rs
  /\ (Dashboard.data Dashboard.statsCache <> None ->
      Dashboard.data c' <> None).
Proof.
  apply (serve_all_invariants world_late
           [(t0, req_admin); (t0 + 5000, req_admin); (t0 + 6000, req_admin)]
           Dashboard.statsCache 0).
Defined.

Lemma serve_in_time_witness :
  serve_in world_degraded (cache1, 2%nat) (t0 + 5000) req_admin
  = serve (fun _ => Fulfilled counts_degraded) (cache1, 2%nat) (t0 + 5000)
          req_admin.
Proof.
  apply (serve_in_time world_degraded cache1 2 (t0 + 5000) req_admin).
  reflexivity.
Defined.

Lemma recentInquiries_all_or_nothing_witness :
  (exists items,
     run (answering (selected [inquiry1])) tt (recentInquiries t0)
     = (tt, Listed items, [SelectRecentInquiries t0 5])
     /\ out_id <$> items = [Some (lit "i-1")])
  /\ run (answering (selected [inquiry1; inquiry_orphan])) tt
         (recentInquiries t0)
     = (tt, FetchFailed, [SelectRecentInquiries t0 5]).
Proof.
  split.
  - destruct (recentInquiries_all_or_nothing t0 (selected [inquiry1]))
      as (reply & Hrun & Hall & _).
    destruct (Hall [inquiry1] eq_refl) as (items & -> & Hid & _).
    + repeat constructor. discriminate.
    + exists items. split; [exact Hrun|exact Hid].
  - destruct (recentInquiries_all_or_nothing t0
                (selected [inquiry1; inquiry_orphan]))
      as (reply & Hrun & _ & Hnone & _).
    rewrite (Hnone [inquiry1; inquiry_orphan] eq_refl) in Hrun.
    + exact Hrun.
    + apply Exists_cons_tl, Exists_cons_hd. reflexivity.
Defined.

Lemma allowedOrigins_shape_witness :
  length (allowedOrigins (Some origins_env)) = 2%nat
  /\ Forall (fun o => (o = [] \/ clean o) /\ 44%N ∉ o)
            (allowedOrigins (Some origins_env)).
Proof.
  destruct (allowedOrigins_shape (Some origins_env)) as (_ & _ & Hset).
  apply (Hset origins_env eq_refl). vm_compute. congruence.
Defined.
End Witnesses.

(** ** The POST handler against the table of the schema *)

(** X19.  Against the table as the schema defines it, no recordView call
    succeeds: a blank id is answered 400 without a call, and every other
    request is answered 500 after the one insert the table turns down; the
    count is never read and the table is left as it was. *)
Theorem recordView_fails_on_schema (db : Db) (now : Z) (req : Request) :
  let '(db', r, tr) := run pg_await db (recordView now req) in
  db' = db
  /\ ~ is_success r
  /\ ((tr = [] /\ r = status_json 400 (Failure "Invalid property ID"))
      \/ (exists P, tr = [InsertPropertyViews Admin [view_row now req P]]
            /\ r = status_json 500
                     (Failure "Failed to record property view"))).
Proof.
  unfold recordView. destruct (negb _); cbn [run].
  - split; [reflexivity|]. split; [|left; split; reflexivity].
    intros [n Hn]. discriminate Hn.
  - unfold pg_await at 1. cbn [pg_exec]. rewrite pg_insert_view_row.
    cbn [run]. split; [reflexivity|]. split; [|right; eexists; split; reflexivity].
    intros [n Hn]. discriminate Hn.
Qed.
